(** * ArcQuiz: the quiz-session engine of [app.py]

    A shallow embedding of the question-bank loader and of the quiz-session
    state machine of [src/app.py] (routes [/start], [/quiz], [/answer],
    [/result], [/reset] and the helpers they call), with the properties of
    the specification stated and proved about it.

    Conventions of the embedding:
    - a decoded JSON document is a [value]; a question is the Python [dict]
      that [json.load] produced, a [gmap string value];
    - Python exceptions are the constructors of [exn]; a computation that may
      raise returns a [res];
    - a request handler is a computation in the monad [M], which threads the
      [world] (question file, random source, clock, Flask session,
      [highscores] table) and may raise;
    - [float] values are IEEE-754 binary64 numbers, the [spec_float] of the
      standard library with [prec = 53] and [emax = 1024]. *)

From Stdlib Require Import ZArith Ascii.
From Stdlib Require SpecFloat.
From stdpp Require Import gmap strings pretty list fin_maps.

Set Warnings "-register-all,-clear-no-such-hyp".
Local Open Scope Z_scope.

(** ** Python values and exceptions *)

(** What [json.load] can return, and what the Flask session stores.
    A nested [dict] keeps its items in insertion order. *)
Inductive value : Type :=
  | VNone
  | VBool (b : bool)
  | VInt (z : Z)
  | VFloat (f : SpecFloat.spec_float)
  | VStr (s : string)
  | VList (l : list value)
  | VDict (items : list (string * value)).

(** A question record, as the code handles it: a [dict] with string keys. *)
Abbreviation question := (gmap string value).

(** The f-string messages of the [ValueError]s raised by [load_questions],
    kept structured: each constructor is one [raise] of the source and carries
    what the message interpolates. [InvalidLiteral] is the [ValueError] of the
    builtin [int] on a string that is not a number. *)
Inductive value_error : Type :=
  | MissingFields (missing : gset string) (q : question)
  | NeedsFourOptions (qid : value)
  | InvalidAnswerIndex (qid : value) (ai : value)
  | InvalidLiteral (s : string).

Inductive exn : Type :=
  | FileNotFoundError (path : string)
  | ValueError (e : value_error)
  | KeyError (key : string)
  | IndexError
  | TypeError
  | StopIteration
  | ZeroDivisionError
  | OverflowError
  | AttributeError.

Inductive res (A : Type) : Type :=
  | Ok (a : A)
  | Raise (e : exn).
Arguments Ok {A} a.
Arguments Raise {A} e.

#[global] Instance res_ret : MRet res := @Ok.
#[global] Instance res_bind : MBind res := λ A B f m,
  match m with
  | Ok a => f a
  | Raise e => Raise e
  end.

(** [isinstance(v, int)]: [bool] is a subclass of [int], so [True] and
    [False] are instances of [int] too. *)
Definition isinstance_int (v : value) : bool :=
  match v with
  | VInt _ | VBool _ => true
  | _ => false
  end.

Definition isinstance_list (v : value) : bool :=
  match v with
  | VList _ => true
  | _ => false
  end.

(** The integer an instance of [int] denotes ([True] is 1, [False] is 0). *)
Definition int_value (v : value) : option Z :=
  match v with
  | VInt z => Some z
  | VBool b => Some (Z.b2z b)
  | _ => None
  end.

(** [d[key]] and [d.get(key)] on a [dict]. *)
Definition getitem (d : question) (key : string) : res value :=
  match d !! key with
  | Some v => Ok v
  | None => Raise (KeyError key)
  end.

Definition dict_get (d : question) (key : string) : value :=
  default VNone (d !! key).

(** [len(v)] for the values that have a length. *)
Definition py_len (v : value) : res Z :=
  match v with
  | VList l => Ok (Z.of_nat (length l))
  | VStr s => Ok (Z.of_nat (String.length s))
  | VDict items => Ok (Z.of_nat (length items))
  | _ => Raise TypeError
  end.

(** ** The question bank loader *)

Definition QUESTIONS_PATH : string := "data/questions.json".

Definition required : gset string :=
  {[ "id"; "question"; "options"; "answer_index"; "explanation" ]}.

(** The integer value of an instance of [int], for the comparisons that
    follow an [isinstance] test (0 for any other value: Python's [or] does not
    reach the comparison then). *)
Definition int_of (v : value) : Z := default 0 (int_value v).

(** The body of the [for q in data] loop of [load_questions]: the three
    checks in the order of the source, each with its own [raise]. *)
Definition check_question (q : question) : res unit :=
  if negb (bool_decide (required ⊆ dom q)) then
    Raise (ValueError (MissingFields (required ∖ dom q) q))
  else
    options ← getitem q "options";
    wrong ← (if negb (isinstance_list options) then Ok true
             else n ← py_len options; Ok (negb (n =? 4)));
    if wrong : bool then
      Raise (ValueError (NeedsFourOptions (dict_get q "id")))
    else
      ai ← getitem q "answer_index";
      if negb (isinstance_int ai) || (int_of ai <? 0) || (int_of ai >? 3) then
        Raise (ValueError (InvalidAnswerIndex (dict_get q "id") ai))
      else Ok ().

Fixpoint check_questions (data : list question) : res unit :=
  match data with
  | [] => Ok ()
  | q :: rest => _ ← check_question q; check_questions rest
  end.

(** [load_questions], as a function of the decoded content of
    [data/questions.json] ([None] when [os.path.exists] is false). The
    content is taken at the type the source declares for it, a list of
    dicts, which is the type at which its callers use the result.
    [Untyped.load_questions] below is the same function on whatever
    [json.load] returns. *)
Definition load_questions (file : option (list question)) : res (list question) :=
  match file with
  | None => Raise (FileNotFoundError QUESTIONS_PATH)
  | Some data => _ ← check_questions data; Ok data
  end.

Definition question_count (file : option (list question)) : Z :=
  match load_questions file with
  | Ok questions => Z.of_nat (length questions)
  | Raise _ => 0
  end.

(** ** What a well-formed question is

    The three structural constraints of the data model, stated on the
    [dict]. An index is an instance of [int] ([isinstance_int]) whose value
    lies in [0,3]; as in Python, the booleans count as the integers 0 and 1. *)
Definition has_required_fields (q : question) : Prop := required ⊆ dom q.

Definition has_four_options (q : question) : Prop :=
  ∃ opts, q !! "options" = Some (VList opts) ∧ length opts = 4%nat.

Definition index_in_range (ai : value) : Prop :=
  ∃ i, int_value ai = Some i ∧ 0 ≤ i ≤ 3.

Definition has_valid_index (q : question) : Prop :=
  ∃ ai, q !! "answer_index" = Some ai ∧ index_in_range ai.

Definition valid_question (q : question) : Prop :=
  has_required_fields q ∧ has_four_options q ∧ has_valid_index q.

(** [violates q e]: [e] names the first constraint (in the order fields,
    options, index) that [q] violates. *)
Inductive violates (q : question) : value_error → Prop :=
  | violates_fields :
      ¬ has_required_fields q →
      violates q (MissingFields (required ∖ dom q) q)
  | violates_options :
      has_required_fields q → ¬ has_four_options q →
      violates q (NeedsFourOptions (dict_get q "id"))
  | violates_index ai :
      has_required_fields q → has_four_options q →
      q !! "answer_index" = Some ai → ¬ index_in_range ai →
      violates q (InvalidAnswerIndex (dict_get q "id") ai).

(** ** Binary64 arithmetic

    Python's [float] is IEEE-754 binary64. [int / int] is the true division
    of two integers: the binary64 number nearest to the exact quotient (ties
    to even), [ZeroDivisionError] for a zero divisor and [OverflowError] when
    the quotient is too large for a [float]. *)
Module F64.
Definition prec : Z := 53.
Definition emax : Z := 1024.

(** An integer as an unrounded operand of the division. *)
Definition of_int (z : Z) : SpecFloat.spec_float :=
  match z with
  | Z0 => SpecFloat.S754_zero false
  | Zpos p => SpecFloat.S754_finite false p 0
  | Zneg p => SpecFloat.S754_finite true p 0
  end.

Definition true_div (a b : Z) : res SpecFloat.spec_float :=
  if b =? 0 then Raise ZeroDivisionError
  else
    match SpecFloat.SFdiv prec emax (of_int a) (of_int b) with
    | SpecFloat.S754_infinity _ => Raise OverflowError
    | f => Ok f
    end.

Definition mul : SpecFloat.spec_float → SpecFloat.spec_float → SpecFloat.spec_float :=
  SpecFloat.SFmul prec emax.
Definition eqb : SpecFloat.spec_float → SpecFloat.spec_float → bool :=
  SpecFloat.SFeqb.
Definition leb : SpecFloat.spec_float → SpecFloat.spec_float → bool :=
  SpecFloat.SFleb.

(** The literals of the source: [m * 2^e] with a 53-bit [m]. *)
Definition zero : SpecFloat.spec_float := SpecFloat.S754_zero false.
Definition one : SpecFloat.spec_float :=
  SpecFloat.S754_finite false 4503599627370496 (-52).
Definition lit_0_8 : SpecFloat.spec_float :=
  SpecFloat.S754_finite false 7205759403792794 (-53).
Definition lit_0_6 : SpecFloat.spec_float :=
  SpecFloat.S754_finite false 5404319552844595 (-53).
Definition lit_0_4 : SpecFloat.spec_float :=
  SpecFloat.S754_finite false 7205759403792794 (-54).
Definition hundred : SpecFloat.spec_float :=
  SpecFloat.S754_finite false 7036874417766400 (-46).
End F64.

(** ** Grade bands *)

(** The [{"title": ..., "msg": ...}] dict that [grade_rank] returns. *)
Record rank : Type := Rank { title : string; msg : string }.

Definition rank_unavailable : rank :=
  Rank "Resultado indisponível" "Não foi possível calcular o resultado.".
Definition rank_excellent : rank :=
  Rank "Excelente" "Pontuação máxima. Ótimo desempenho.".
Definition rank_very_good : rank :=
  Rank "Muito bom" "Desempenho consistente e acima da média.".
Definition rank_good : rank :=
  Rank "Bom" "Bom resultado. Há espaço para evoluir.".
Definition rank_fair : rank :=
  Rank "Regular" "Você está no caminho. Continue praticando.".
Definition rank_beginner : rank :=
  Rank "Iniciante" "Normal no começo. Prática traz consistência.".

(** The chain of comparisons of [grade_rank] on the computed [pct]. *)
Definition band_of_pct (pct : SpecFloat.spec_float) : rank :=
  if F64.eqb pct F64.one then rank_excellent
  else if F64.leb F64.lit_0_8 pct then rank_very_good
  else if F64.leb F64.lit_0_6 pct then rank_good
  else if F64.leb F64.lit_0_4 pct then rank_fair
  else rank_beginner.

Definition grade_rank (score total : Z) : res rank :=
  if total <=? 0 then Ok rank_unavailable
  else
    pct ← F64.true_div score total;
    Ok (band_of_pct pct).

(** The same classification on exact fractions: the band of [score / total]
    decided on integers, [score/total >= 8/10] being [10 * score >= 8 * total]. *)
Definition grade_exact (score total : Z) : rank :=
  if total <=? 0 then rank_unavailable
  else if score =? total then rank_excellent
  else if 8 * total <=? 10 * score then rank_very_good
  else if 6 * total <=? 10 * score then rank_good
  else if 4 * total <=? 10 * score then rank_fair
  else rank_beginner.

#[global] Instance rank_eq_dec : EqDecision rank.
Proof. solve_decision. Defined.

(** Whether [grade_rank] and [grade_exact] give the same band for every score
    from 0 to [total], and for every total up to [n]. *)
Definition bands_agree (total : Z) : bool :=
  forallb
    (λ score,
       match grade_rank score total with
       | Ok r => bool_decide (r = grade_exact score total)
       | Raise _ => false
       end)
    (seqZ 0 (total + 1)).

Definition bands_agree_upto (n : Z) : bool := forallb bands_agree (seqZ 0 (n + 1)).

(** ** The random source and [random.shuffle]

    The generator is a tape of draws and a cursor; [randbelow n] reads the
    next draw reduced below [n]. Every behaviour of the library generator is
    the behaviour of some tape. *)
Record rng : Type := Rng { rng_tape : nat → nat; rng_pos : nat }.

Definition randbelow (n : nat) (g : rng) : nat * rng :=
  ((rng_tape g (rng_pos g) `mod` n)%nat, Rng (rng_tape g) (S (rng_pos g))).

(** [x[i], x[j] = x[j], x[i]] *)
Definition swap {A} (x : list A) (i j : nat) : list A :=
  match x !! j, x !! i with
  | Some xj, Some xi => <[j := xi]> (<[i := xj]> x)
  | _, _ => x
  end.

(** The loop of [random.shuffle]:
    [for i in reversed(range(1, len(x))): j = randbelow(i + 1); swap]. *)
Fixpoint shuffle_from {A} (i : nat) (x : list A) (g : rng) : list A * rng :=
  match i with
  | O => (x, g)
  | S i' =>
      let '(j, g') := randbelow (S i) g in
      shuffle_from i' (swap x i j) g'
  end.

Definition random_shuffle {A} (x : list A) (g : rng) : list A * rng :=
  shuffle_from (length x - 1) x g.

(** ** The world of a request

    What the handlers read and write: the question file, the random source,
    the clock, the Flask session of the visitor and the [highscores] table. *)

(** One entry of [quiz_state["answers"]]. *)
Record answer_record : Type := AnswerRecord {
  a_id : value;
  a_question : value;
  a_chosen : string;
  a_correct : string;
  a_is_correct : bool;
  a_explanation : value
}.

(** [session["quiz"]] *)
Record quiz_state : Type := QuizState {
  questions : list question;
  idx : Z;
  score : Z;
  answers : list answer_record;
  started_at : nat
}.

(** The number of records of the log whose [is_correct] flag is set. *)
Definition correct_answers (log : list answer_record) : Z :=
  Z.of_nat (length (List.filter a_is_correct log)).

(** The invariant of the data model: the position is within the question
    sequence, the log has one record per answered question, and the score
    counts the records that are correct. *)
Definition session_invariant (qs : quiz_state) : Prop :=
  0 ≤ idx qs ≤ Z.of_nat (length (questions qs)) ∧
  Z.of_nat (length (answers qs)) = idx qs ∧
  score qs = correct_answers (answers qs).

(** The Flask session: a key that is absent is [None]. [s_flashes] is the
    [_flashes] entry that [flash] appends to, a list of (category, message). *)
Record flask_session : Type := FlaskSession {
  s_quiz : option quiz_state;
  s_score_saved : option bool;
  s_player_name : option string;
  s_amount : option Z;
  s_flashes : list (string * string)
}.

(** A row of the [highscores] table. *)
Record highscore : Type := Highscore {
  h_name : string;
  h_score : Z;
  h_total : Z;
  h_percent : SpecFloat.spec_float;
  h_created_at : nat
}.

Record world : Type := World {
  w_questions_file : option (list question);
  w_random : rng;
  w_clock : nat;
  w_session : flask_session;
  w_highscores : list highscore
}.

(** Handlers run in a state monad over [world] that may raise. *)
Definition M (A : Type) : Type := world → res A * world.

#[global] Instance M_ret : MRet M := λ A a w, (Ok a, w).
#[global] Instance M_bind : MBind M := λ A B f m w,
  match m w with
  | (Ok a, w') => f a w'
  | (Raise e, w') => (Raise e, w')
  end.

Definition lift {A} (r : res A) : M A := λ w, (r, w).

Definition get_session : M flask_session := λ w, (Ok (w_session w), w).

Definition with_session (s : flask_session) (w : world) : world :=
  World (w_questions_file w) (w_random w) (w_clock w) s (w_highscores w).
Definition with_random (g : rng) (w : world) : world :=
  World (w_questions_file w) g (w_clock w) (w_session w) (w_highscores w).
Definition with_highscores (rows : list highscore) (w : world) : world :=
  World (w_questions_file w) (w_random w) (w_clock w) (w_session w) rows.

Definition put_session (s : flask_session) : M unit := λ w, (Ok (), with_session s w).

Definition set_quiz (q : option quiz_state) (s : flask_session) : flask_session :=
  FlaskSession q (s_score_saved s) (s_player_name s) (s_amount s) (s_flashes s).
Definition set_score_saved (b : bool) (s : flask_session) : flask_session :=
  FlaskSession (s_quiz s) (Some b) (s_player_name s) (s_amount s) (s_flashes s).
Definition set_player_name (n : string) (s : flask_session) : flask_session :=
  FlaskSession (s_quiz s) (s_score_saved s) (Some n) (s_amount s) (s_flashes s).
Definition set_amount (a : Z) (s : flask_session) : flask_session :=
  FlaskSession (s_quiz s) (s_score_saved s) (s_player_name s) (Some a) (s_flashes s).
Definition add_flash (category message : string) (s : flask_session) : flask_session :=
  FlaskSession (s_quiz s) (s_score_saved s) (s_player_name s) (s_amount s)
    (s_flashes s ++ [(category, message)]).

(** [session[key] = v] and friends *)
Definition modify_session (f : flask_session → flask_session) : M unit :=
  s ← get_session; put_session (f s).

(** [flash(message, category)] *)
Definition flash (message category : string) : M unit :=
  modify_session (add_flash category message).

(** [datetime.utcnow().isoformat()]: the reading of the clock. *)
Definition utcnow : M nat := λ w, (Ok (w_clock w), w).

(** [random.shuffle(x)] on the random source of the world. *)
Definition shuffle {A} (x : list A) : M (list A) := λ w,
  let '(x', g) := random_shuffle x (w_random w) in
  (Ok x', with_random g w).

(** [INSERT INTO highscores ...; commit] *)
Definition insert_highscore (row : highscore) : M unit := λ w,
  (Ok (), with_highscores (w_highscores w ++ [row]) w).

Definition read_questions : M (list question) := λ w,
  (load_questions (w_questions_file w), w).

(** ** More of Python's data model *)

(** [list(v)] for the values that can be iterated: a list gives its items, a
    string its characters, a [dict] its keys. *)
Definition py_iter (v : value) : res (list value) :=
  match v with
  | VList l => Ok l
  | VStr s => Ok ((λ c, VStr (String c EmptyString)) <$> String.list_ascii_of_string s)
  | VDict items => Ok ((λ kv, VStr kv.1) <$> items)
  | _ => Raise TypeError
  end.

(** [l[i]] for an integer [i]: a negative index counts from the end. *)
Definition list_getitem {A} (l : list A) (i : Z) : res A :=
  let n := Z.of_nat (length l) in
  let k := if i <? 0 then i + n else i in
  if (k <? 0) || (n <=? k) then Raise IndexError
  else
    match l !! Z.to_nat k with
    | Some x => Ok x
    | None => Raise IndexError
    end.

(** [l[v]] for a value [v]: only instances of [int] are indices. *)
Definition list_getitem_value {A} (l : list A) (v : value) : res A :=
  if isinstance_int v then list_getitem l (int_of v) else Raise TypeError.

(** [l[:n]] *)
Definition slice_to {A} (l : list A) (n : Z) : list A :=
  if n <? 0 then take (length l - Z.to_nat (- n)) l else take (Z.to_nat n) l.

(** [f == n] for a [float] and an [int]: the comparison is exact. *)
Definition float_eq_int (f : SpecFloat.spec_float) (n : Z) : bool :=
  match f with
  | SpecFloat.S754_zero _ => n =? 0
  | SpecFloat.S754_finite s m e =>
      let sm := if s then Zneg m else Zpos m in
      if 0 <=? e then n =? sm * 2 ^ e else sm =? n * 2 ^ (- e)
  | _ => false
  end.

(** [n == v] for an [int] and any value. *)
Definition int_eq_value (n : Z) (v : value) : bool :=
  match v with
  | VInt z => n =? z
  | VBool b => n =? Z.b2z b
  | VFloat f => float_eq_int f n
  | _ => false
  end.

(** [list(enumerate(l))] *)
Definition enumerate {A} (l : list A) : list (Z * A) :=
  imap (λ i x, (Z.of_nat i, x)) l.

(** ** The loader on any document

    [json.load] returns any JSON value, not only a list of objects, or
    raises. The loop of [load_questions] iterates whatever it was given and
    asks each element for its [keys()] before any check. *)

(** The question file as the loader finds it: absent, or present with the
    outcome of [json.load(f)], the decoded document or the exception that
    [json.load] raised. *)
Inductive question_file : Type :=
  | Absent
  | Present (decoded : res value).

Module Untyped.
(** [q.keys()] and the subscripts that follow: only a [dict] has the
    method. The items of a [dict] that [json.load] built have distinct keys;
    they are the entries of the map. *)
Definition as_dict (q : value) : res question :=
  match q with
  | VDict items => Ok (list_to_map items)
  | _ => Raise AttributeError
  end.

(** The body of the loop on one element of the document. *)
Definition check_entry (entry : value) : res unit :=
  q ← as_dict entry; check_question q.

Fixpoint check_entries (entries : list value) : res unit :=
  match entries with
  | [] => Ok ()
  | entry :: rest => _ ← check_entry entry; check_entries rest
  end.

(** [load_questions]: [for q in data] iterates a list, the characters of a
    string or the keys of an object, and raises [TypeError] on any other
    value; the document is returned as it was decoded. *)
Definition load_questions (file : question_file) : res value :=
  match file with
  | Absent => Raise (FileNotFoundError QUESTIONS_PATH)
  | Present decoded =>
      data ← decoded;
      entries ← py_iter data;
      _ ← check_entries entries;
      Ok data
  end.
End Untyped.








(** ** Shuffling the options of a question *)

(** [next(i for i, (old_idx, _) in enumerate(indexed) if old_idx == correct_idx)] *)
Definition next_index (correct_idx : value) (indexed : list (Z * value)) : res Z :=
  match list_find (λ p, Is_true (int_eq_value p.1 correct_idx)) indexed with
  | Some (i, _) => Ok (Z.of_nat i)
  | None => Raise StopIteration
  end.

Definition shuffle_question (q : question) : M question :=
  options ← lift (getitem q "options");
  correct_idx ← lift (getitem q "answer_index");
  items ← lift (py_iter options);
  indexed ← shuffle (enumerate items);
  let new_options := indexed.*2 in
  new_correct_idx ← lift (next_index correct_idx indexed);
  mret (<["answer_index" := VInt new_correct_idx]> (<["options" := VList new_options]> q)).

(** ** Building a session *)

Definition build_quiz_session (amount : Z) : M unit :=
  questions ← read_questions;
  questions ← shuffle questions;
  let available := Z.of_nat (length questions) in
  let amount := Z.max 1 (Z.min amount available) in
  let selected := slice_to questions amount in
  prepared ← mapM shuffle_question selected;
  now ← utcnow;
  _ ← modify_session (set_quiz (Some (QuizState prepared 0 0 [] now)));
  modify_session (set_score_saved false).

Definition current_quiz : M (option quiz_state) :=
  s ← get_session; mret (s_quiz s).

(** ** Requests and responses *)

(** [request.form]: the three fields the handlers read. *)
Record form : Type := Form {
  f_name : option string;
  f_amount : option string;
  f_choice : option string
}.

(** What a handler returns: a redirect to an endpoint, or a template with the
    values it is rendered with. *)
Inductive response : Type :=
  | Redirect (endpoint : string)
  | RenderIndex (available : Z)
  | RenderQuiz (name : string) (idx total : Z) (question qid : value)
      (options : list (string * value))
  | RenderResult (name : string) (score total : Z)
      (percent : SpecFloat.spec_float) (rk : rank) (answers : list answer_record).

Definition letters : list string := ["A"; "B"; "C"; "D"].
Definition letter_set : gset string := {[ "A"; "B"; "C"; "D" ]}.

(** The option index a letter stands for (A=0, B=1, C=2, D=3). *)
Definition letter_index (letter : string) : option Z :=
  (λ p, Z.of_nat p.1) <$> list_find (λ l, l = letter) letters.

(** ** The string builtins on ASCII text

    The handlers below take [str.strip], [str.upper] and [int] as parameters.
    This module gives them on ASCII text, to run the handlers on concrete
    requests: [strip] removes what [str.isspace] accepts below 128, [upper]
    maps [a-z] to [A-Z], and [int] skips the white space of C's [isspace]
    around an optional sign and decimal digits that single underscores may
    separate. They agree with Python on ASCII strings of at most 4300
    digits: [str.strip] also removes white space above 127, and [int] also
    reads the decimal digits of other scripts and refuses longer numerals.
    The properties of the handlers hold for any three functions; only the
    concrete requests at the end of the file run these. *)
Module AsciiStr.
Definition is_space (c : ascii) : bool :=
  let n := nat_of_ascii c in
  ((9 <=? n) && (n <=? 13) || (28 <=? n) && (n <=? 32))%nat.

(** The white space [int] skips: C's [isspace]. *)
Definition is_c_space (c : ascii) : bool :=
  let n := nat_of_ascii c in
  ((9 <=? n) && (n <=? 13) || (n =? 32))%nat.

Fixpoint lstrip (space : ascii → bool) (cs : list ascii) : list ascii :=
  match cs with
  | c :: cs' => if space c then lstrip space cs' else cs
  | [] => []
  end.

Definition strip_with (space : ascii → bool) (cs : list ascii) : list ascii :=
  reverse (lstrip space (reverse (lstrip space cs))).

Definition strip (s : string) : string :=
  String.string_of_list_ascii (strip_with is_space (String.list_ascii_of_string s)).

Definition upper_char (c : ascii) : ascii :=
  let n := nat_of_ascii c in
  if ((97 <=? n) && (n <=? 122))%nat then ascii_of_nat (n - 32) else c.

Definition upper (s : string) : string :=
  String.string_of_list_ascii (upper_char <$> String.list_ascii_of_string s).

Definition digit (c : ascii) : option Z :=
  let n := nat_of_ascii c in
  if ((48 <=? n) && (n <=? 57))%nat then Some (Z.of_nat (n - 48)) else None.

(** The digits after the sign; [after_digit] tells whether the previous
    character was a digit (an underscore has to stand between two digits). *)
Fixpoint digits (acc : Z) (after_digit : bool) (cs : list ascii) : option Z :=
  match cs with
  | [] => if after_digit then Some acc else None
  | c :: cs' =>
      match digit c with
      | Some d => digits (10 * acc + d) true cs'
      | None =>
          if after_digit && bool_decide (c = "_"%char) then digits acc false cs'
          else None
      end
  end.

Definition int (s : string) : option Z :=
  match strip_with is_c_space (String.list_ascii_of_string s) with
  | "-"%char :: cs => Z.opp <$> digits 0 false cs
  | "+"%char :: cs => digits 0 false cs
  | cs => digits 0 false cs
  end.
End AsciiStr.

(** ** Well-formed worlds and shuffled copies *)

(** The quiz of the session, when there is one, satisfies the invariant and
    holds questions that pass the checks of the loader. *)
Definition well_formed (w : world) : Prop :=
  ∀ qs, s_quiz (w_session w) = Some qs →
        session_invariant qs ∧ Forall valid_question (questions qs).

(** [q'] is [q] with its options permuted and its index moved along: every
    other key is as in [q], and the option at the new index is the option
    that was at the old one. *)
Definition shuffled_copy (q q' : question) : Prop :=
  (∀ key, key ≠ "options" → key ≠ "answer_index" → q' !! key = q !! key) ∧
  ∃ opts opts' ai i j,
    q !! "options" = Some (VList opts) ∧ q' !! "options" = Some (VList opts') ∧
    opts' ≡ₚ opts ∧
    q !! "answer_index" = Some ai ∧ int_value ai = Some i ∧
    q' !! "answer_index" = Some (VInt j) ∧
    0 ≤ j < Z.of_nat (length opts') ∧
    opts' !! Z.to_nat j = opts !! Z.to_nat i.

(** ** Sample data

    A bank of five well-formed questions, some malformed entries, and the
    world of a visitor who has not started a quiz. *)
Module Sample.
Definition make_question (qid : Z) (ai : value) (opts : list value) : question :=
  <["id" := VInt qid]>
    (<["question" := VStr "Which one?"]>
       (<["options" := VList opts]>
          (<["answer_index" := ai]>
             (<["explanation" := VStr "See the manual."]> ∅)))).

Definition four : list value := [VStr "north"; VStr "east"; VStr "south"; VStr "west"].

Definition bank : list question :=
  [ make_question 1 (VInt 0) four; make_question 2 (VInt 1) four;
    make_question 3 (VInt 2) four; make_question 4 (VInt 3) four;
    make_question 5 (VInt 2) four ].

Definition small_bank : list question := take 2 bank.

(** Fifteen questions: more than the default amount of ten. *)
Definition large_bank : list question := bank ++ bank ++ bank.

(** Entries that violate one constraint each. *)
Definition no_explanation : question := delete "explanation" (make_question 6 (VInt 0) four).
Definition three_options : question := make_question 7 (VInt 0) (take 3 four).
Definition index_four : question := make_question 8 (VInt 4) four.
Definition index_string : question := make_question 9 (VStr "1") four.

Definition tape (n : nat) : nat := (7 * n + 3)%nat.

Definition fresh_session : flask_session := FlaskSession None None None None [].

Definition world_with (file : option (list question)) (s : flask_session) : world :=
  World file (Rng tape 0) 100 s [].

Definition fresh_world : world := world_with (Some bank) fresh_session.

(** A session on the first three questions of the bank, before any answer. *)
Definition quiz_at_start : quiz_state := QuizState (take 3 bank) 0 0 [] 100.

Definition started_session : flask_session :=
  FlaskSession (Some quiz_at_start) (Some false) (Some "Ana") (Some 3) [].

Definition started_world : world := world_with (Some bank) started_session.

Definition choose (letter : string) : form := Form None None (Some letter).

(** The same questions as [json.load] returns them. *)
Definition entry (qid : Z) (ai : value) (opts : list value) : value :=
  VDict [("id", VInt qid); ("question", VStr "Which one?"); ("options", VList opts);
         ("answer_index", ai); ("explanation", VStr "See the manual.")].

End Sample.

(** ** The request handlers *)

Section Engine.

(** The builtins on strings: [s.strip()], [s.upper()] and [int(s)], the
    latter [None] when it raises [ValueError]. *)
Variable str_strip : string → string.
Variable str_upper : string → string.
Variable int_of_str : string → option Z.

Definition clamp_int (value : string) (default_v min_v max_v : Z) : Z :=
  match int_of_str value with
  | Some x => Z.max min_v (Z.min max_v x)
  | None => default_v
  end.

Definition available_questions : M Z := λ w,
  (Ok (question_count (w_questions_file w)), w).

Definition start (f : form) : M response :=
  available ← available_questions;
  if available <=? 0 then
    _ ← flash "Não há perguntas disponíveis. Verifique data/questions.json." "error";
    mret (Redirect "index")
  else
    let name :=
      let n := str_strip (default "" (f_name f)) in
      if bool_decide (n = "") then "Player" else n in
    let requested_raw := default "" (f_amount f) in
    let default_amount := Z.min 10 available in
    let requested := clamp_int requested_raw default_amount 1 available in
    _ ← match int_of_str requested_raw with
        | Some raw_int =>
            if raw_int >? available then
              flash ("Quantidade ajustada para " +:+ pretty available
                       +:+ " (total disponível).") "warning"
            else mret ()
        | None => mret ()
        end;
    _ ← modify_session (set_player_name name);
    _ ← modify_session (set_amount requested);
    _ ← build_quiz_session requested;
    mret (Redirect "quiz").

Definition player_name (s : flask_session) : string :=
  default "Player" (s_player_name s).

Definition quiz : M response :=
  quiz_state ← current_quiz;
  match quiz_state with
  | None =>
      _ ← flash "Nenhum quiz ativo. Inicie um novo." "warning";
      mret (Redirect "index")
  | Some quiz_state =>
      let idx := idx quiz_state in
      let questions := questions quiz_state in
      let total := Z.of_nat (length questions) in
      if total <=? idx then mret (Redirect "result")
      else
        q ← lift (list_getitem questions idx);
        opts ← lift (o ← getitem q "options"; py_iter o);
        let options := zip letters opts in
        s ← get_session;
        question ← lift (getitem q "question");
        qid ← lift (getitem q "id");
        mret (RenderQuiz (player_name s) idx total question qid options)
  end.

Definition answer (f : form) : M response :=
  quiz_state ← current_quiz;
  match quiz_state with
  | None =>
      _ ← flash "Nenhum quiz ativo. Volte ao início." "warning";
      mret (Redirect "index")
  | Some quiz_state =>
      let idx := idx quiz_state in
      let questions := questions quiz_state in
      let total := Z.of_nat (length questions) in
      if total <=? idx then mret (Redirect "result")
      else
        let chosen := str_upper (str_strip (default "" (f_choice f))) in
        if negb (bool_decide (chosen ∈ letter_set)) then
          _ ← flash "Selecione uma alternativa válida (A, B, C ou D)." "error";
          mret (Redirect "quiz")
        else
          q ← lift (list_getitem questions idx);
          ai ← lift (getitem q "answer_index");
          correct_letter ← lift (list_getitem_value letters ai);
          let is_correct := bool_decide (chosen = correct_letter) in
          let score := if is_correct then score quiz_state + 1 else score quiz_state in
          qid ← lift (getitem q "id");
          question ← lift (getitem q "question");
          explanation ← lift (getitem q "explanation");
          let answers :=
            answers quiz_state ++
              [AnswerRecord qid question chosen correct_letter is_correct explanation] in
          let idx := idx + 1 in
          _ ← modify_session
                (set_quiz (Some (QuizState questions idx score answers
                                   (started_at quiz_state))));
          mret (Redirect "quiz")
  end.

(** [(score / total * 100.0) if total else 0.0] *)
Definition percent_of (score total : Z) : res SpecFloat.spec_float :=
  if total =? 0 then Ok F64.zero
  else d ← F64.true_div score total; Ok (F64.mul d F64.hundred).

Definition result : M response :=
  quiz_state ← current_quiz;
  match quiz_state with
  | None =>
      _ ← flash "Nenhum quiz ativo. Inicie um novo." "warning";
      mret (Redirect "index")
  | Some quiz_state =>
      s ← get_session;
      let name := player_name s in
      let score := score quiz_state in
      let total := Z.of_nat (length (questions quiz_state)) in
      percent ← lift (percent_of score total);
      rk ← lift (grade_rank score total);
      _ ← (if negb (default false (s_score_saved s)) then
             now ← utcnow;
             _ ← insert_highscore (Highscore name score total percent now);
             modify_session (set_score_saved true)
           else mret ());
      mret (RenderResult name score total percent rk (answers quiz_state))
  end.

Definition reset : M response :=
  available ← available_questions;
  if available <=? 0 then
    _ ← modify_session (set_quiz None);
    _ ← modify_session (set_score_saved false);
    _ ← flash "Não há perguntas disponíveis. Verifique data/questions.json." "error";
    mret (Redirect "index")
  else
    s ← get_session;
    let amount := default (Z.min 10 available) (s_amount s) in
    let amount := Z.max 1 (Z.min amount available) in
    _ ← build_quiz_session amount;
    _ ← flash "Novo quiz iniciado." "success";
    mret (Redirect "quiz").

Definition index : M response :=
  available ← available_questions;
  mret (RenderIndex available).

(** The routes of the application. *)
Inductive request : Type :=
  | GetIndex
  | PostStart (f : form)
  | GetQuiz
  | PostAnswer (f : form)
  | GetResult
  | PostReset.

Definition handle (r : request) : M response :=
  match r with
  | GetIndex => index
  | PostStart f => start f
  | GetQuiz => quiz
  | PostAnswer f => answer f
  | GetResult => result
  | PostReset => reset
  end.

(** The requests that start a new session. *)
Definition starts_session (r : request) : bool :=
  match r with
  | PostStart _ | PostReset => true
  | _ => false
  end.

(** The world after a request, and after a sequence of requests. A request
    that raises is answered with an error page; the next one finds the world
    as the failed one left it. *)
Definition after (r : request) (w : world) : world := (handle r w).2.

Definition after_all (rs : list request) (w : world) : world :=
  foldl (λ w r, after r w) w rs.

(** Whether the choice of a form normalises to one of the four letters, and
    how many forms of a list do. *)
Definition valid_choice (f : form) : bool :=
  bool_decide (str_upper (str_strip (default "" (f_choice f))) ∈ letter_set).

Definition count_valid (forms : list form) : Z :=
  Z.of_nat (length (List.filter valid_choice forms)).

(** The result views among the requests. *)
Definition is_result (r : request) : bool :=
  match r with
  | GetResult => true
  | _ => false
  end.


(** * Properties *)

(** ** The loader *)

Lemma required_fields_lookup (q : question) (k : string) :
  has_required_fields q → k ∈ required → is_Some (q !! k).
Proof using Type. intros Hq Hk. apply elem_of_dom. by apply Hq. Qed.

Lemma index_in_range_check (ai : value) :
  index_in_range ai ↔
  negb (isinstance_int ai) || (int_of ai <? 0) || (int_of ai >? 3) = false.
Proof using Type.
  unfold index_in_range, int_of. split.
  - intros (i & Hi & ?). destruct ai; simplify_eq/=; lia.
  - intros H. destruct ai; simplify_eq/=; eexists; (split; [done|lia]).
Qed.

Lemma has_four_options_check (q : question) (options : value) :
  q !! "options" = Some options →
  has_four_options q ↔
  (if negb (isinstance_list options) then Ok true
   else n ← py_len options; Ok (negb (n =? 4))) = Ok false.
Proof using Type.
  intros Hq. unfold has_four_options. rewrite Hq. split.
  - intros (opts & [= ->] & Hlen). simpl. rewrite Hlen. done.
  - destruct options; simpl; try discriminate.
    intros [= H]. eexists; split; [done|].
    apply negb_false_iff in H. lia.
Qed.

(** [check_question] accepts exactly the well-formed questions. *)
Lemma check_question_Ok (q : question) :
  check_question q = Ok () ↔ valid_question q.
Proof using Type.
  unfold check_question, valid_question. case_bool_decide as Hreq; simpl.
  2:{ split; [done|]. intros (? & _); done. }
  destruct (required_fields_lookup q "options" Hreq) as [options Ho]; [by vm_compute|].
  destruct (required_fields_lookup q "answer_index" Hreq) as [ai Ha]; [by vm_compute|].
  unfold getitem. rewrite Ho. simpl.
  pose proof (has_four_options_check q options Ho) as H4.
  destruct (if negb (isinstance_list options) then _ else _) as [[|]|] eqn:Hw; simpl.
  - split; [done|]. intros (_ & H & _). apply H4 in H. done.
  - rewrite Ha. simpl.
    pose proof (index_in_range_check ai) as Hi. unfold has_valid_index.
    destruct (negb (isinstance_int ai) || _ || _) eqn:Hb.
    + split; [done|]. intros (_ & _ & ai' & Ha' & Hr). simplify_eq.
      apply Hi in Hr. done.
    + split; [|done]. intros _. split_and!; [done|by apply H4|].
      exists ai. split; [done|]. by apply Hi.
  - split; [done|]. intros (_ & H & _). apply H4 in H. done.
Qed.

(** A question that is not well formed is refused with the error that names
    the first constraint it violates. *)
Lemma check_question_Raise (q : question) :
  ¬ valid_question q →
  ∃ e, check_question q = Raise (ValueError e) ∧ violates q e.
Proof using Type.
  intros Hbad. unfold check_question. case_bool_decide as Hreq; simpl.
  2:{ eexists; split; [done|]. by constructor. }
  destruct (required_fields_lookup q "options" Hreq) as [options Ho]; [by vm_compute|].
  destruct (required_fields_lookup q "answer_index" Hreq) as [ai Ha]; [by vm_compute|].
  unfold getitem. rewrite Ho. simpl.
  pose proof (has_four_options_check q options Ho) as H4.
  assert (∃ b, (if negb (isinstance_list options) then Ok true
                else n ← py_len options; Ok (negb (n =? 4))) = Ok b) as [b Hb].
  { destruct options; simpl; eauto. }
  rewrite Hb in *. simpl. destruct b.
  - eexists; split; [done|]. constructor; [done|]. intros H. apply H4 in H. done.
  - rewrite Ha. simpl. pose proof (index_in_range_check ai) as Hi.
    destruct (negb (isinstance_int ai) || _ || _) eqn:Hc.
    + eexists; split; [done|]. econstructor; [done|by apply H4|done|].
      intros H. apply Hi in H. done.
    + exfalso. apply Hbad. split_and!; [done|by apply H4|].
      exists ai. split; [done|]. by apply Hi.
Qed.

Lemma check_questions_Ok (data : list question) :
  check_questions data = Ok () ↔ Forall valid_question data.
Proof using Type.
  induction data as [|q data IH]; simpl.
  - split; [constructor|done].
  - rewrite Forall_cons, <- IH, <- check_question_Ok.
    destruct (check_question q) as [[]|]; simpl; naive_solver.
Qed.

Lemma check_questions_Raise (data : list question) :
  ¬ Forall valid_question data →
  ∃ good q rest e,
    data = good ++ q :: rest ∧ Forall valid_question good ∧
    ¬ valid_question q ∧ violates q e ∧
    check_questions data = Raise (ValueError e).
Proof using Type.
  induction data as [|q data IH]; intros Hbad.
  - destruct Hbad. constructor.
  - simpl. destruct (check_question q) as [[]|x] eqn:Hq; simpl.
    + apply check_question_Ok in Hq.
      destruct IH as (good & q' & rest & e & -> & ? & ? & ? & ?).
      { intros H. apply Hbad. by constructor. }
      exists (q :: good), q', rest, e. split_and!; try done. by constructor.
    + assert (¬ valid_question q) as Hnv.
      { intros H. apply check_question_Ok in H. congruence. }
      destruct (check_question_Raise q Hnv) as (e & He & Hv).
      exists [], q, data, e. split_and!; try done. congruence.
Qed.

(** The loader at the declared type. [load_questions] fails with
    [FileNotFoundError] when the question file is absent. When the file is
    there, it returns a bank exactly when every entry is well formed (all
    five required fields, a list of exactly four options, an [int] index in
    [0,3]), and the bank is then the whole content of the file; otherwise it
    raises the [ValueError] that names the constraint the first malformed
    entry violates, and returns no bank. *)
Theorem load_questions_all_or_nothing (file : option (list question)) :
  match file with
  | None => load_questions file = Raise (FileNotFoundError QUESTIONS_PATH)
  | Some data =>
      (∀ bank, load_questions file = Ok bank ↔
               bank = data ∧ Forall valid_question data) ∧
      (¬ Forall valid_question data →
       ∃ good q rest e,
         data = good ++ q :: rest ∧ Forall valid_question good ∧
         ¬ valid_question q ∧ violates q e ∧
         load_questions file = Raise (ValueError e))
  end.
Proof using Type.
  destruct file as [data|]; [|done]. simpl. split.
  - intros bank. rewrite <- check_questions_Ok.
    destruct (check_questions data) as [[]|]; simpl; naive_solver.
  - intros Hbad.
    destruct (check_questions_Raise data Hbad) as (good & q & rest & e & H).
    exists good, q, rest, e. destruct H as (? & ? & ? & ? & ->). done.
Qed.

(** *** Documents of any shape *)










(** ** Binary64: a fraction never overflows

    [SFdiv] rounds the quotient of two mantissas with [binary_round_aux]. The
    lemmas below bound the exponent it produces, to show that the quotient of
    two integers [a] and [b] with [|a| <= b] is never an infinity: on such
    operands [int / int] does not raise [OverflowError]. *)

Lemma digits2_pos_bounds (p : positive) :
  2 ^ (Zpos (SpecFloat.digits2_pos p) - 1) ≤ Zpos p < 2 ^ Zpos (SpecFloat.digits2_pos p).
Proof using Type.
  induction p as [p IH|p IH|]; simpl SpecFloat.digits2_pos.
  - rewrite Pos2Z.inj_succ, Z.pow_succ_r by lia.
    replace (Z.succ (Zpos (SpecFloat.digits2_pos p)) - 1)
      with (Z.succ (Zpos (SpecFloat.digits2_pos p) - 1)) by lia.
    rewrite Z.pow_succ_r by lia. lia.
  - rewrite Pos2Z.inj_succ, Z.pow_succ_r by lia.
    replace (Z.succ (Zpos (SpecFloat.digits2_pos p)) - 1)
      with (Z.succ (Zpos (SpecFloat.digits2_pos p) - 1)) by lia.
    rewrite Z.pow_succ_r by lia. lia.
  - simpl. lia.
Qed.

Lemma Zdigits2_nonneg (m : Z) : 0 ≤ SpecFloat.Zdigits2 m.
Proof using Type. destruct m; simpl; lia. Qed.

Lemma Zdigits2_le (m k : Z) :
  0 ≤ k → 0 ≤ m < 2 ^ k → SpecFloat.Zdigits2 m ≤ k.
Proof using Type.
  intros Hk [Hm Hlt]. destruct m as [|p|p]; simpl; [lia| |lia].
  pose proof (digits2_pos_bounds p) as [Hlo _].
  destruct (Z_le_gt_dec (Zpos (SpecFloat.digits2_pos p)) k) as [|Hgt]; [done|].
  exfalso. assert (2 ^ k ≤ 2 ^ (Zpos (SpecFloat.digits2_pos p) - 1)).
  { apply Z.pow_le_mono_r; lia. }
  lia.
Qed.

Lemma Zdigits2_lt_pow (m : Z) : 0 ≤ m → m < 2 ^ SpecFloat.Zdigits2 m.
Proof using Type.
  intros Hm. destruct m as [|p|p]; simpl; [lia| |lia].
  apply digits2_pos_bounds.
Qed.

Lemma shr_1_bounds (mrs : SpecFloat.shr_record) :
  0 ≤ SpecFloat.shr_m mrs →
  0 ≤ SpecFloat.shr_m (SpecFloat.shr_1 mrs) ≤ SpecFloat.shr_m mrs.
Proof using Type.
  destruct mrs as [m r s]. simpl. intros Hm.
  destruct m as [|[p|p|]|p]; simpl; lia.
Qed.

Lemma iter_shr_1_bounds (n : positive) (mrs : SpecFloat.shr_record) :
  0 ≤ SpecFloat.shr_m mrs →
  0 ≤ SpecFloat.shr_m (SpecFloat.iter_pos SpecFloat.shr_1 n mrs) ≤ SpecFloat.shr_m mrs.
Proof using Type.
  revert mrs. induction n as [n IH|n IH|]; intros mrs Hm; simpl.
  - pose proof (shr_1_bounds mrs Hm) as H1.
    pose proof (IH _ (proj1 H1)) as H2.
    pose proof (IH _ (proj1 H2)) as H3. lia.
  - pose proof (IH _ Hm) as H2.
    pose proof (IH _ (proj1 H2)) as H3. lia.
  - by apply shr_1_bounds.
Qed.

Lemma shr_m_of_loc (m : Z) (l : SpecFloat.location) :
  SpecFloat.shr_m (SpecFloat.shr_record_of_loc m l) = m.
Proof using Type. destruct l as [|[]]; done. Qed.

Lemma shr_fexp_bounds (m e : Z) (l : SpecFloat.location) :
  0 ≤ m →
  let '(mrs, e') := SpecFloat.shr_fexp F64.prec F64.emax m e l in
  0 ≤ SpecFloat.shr_m mrs ≤ m ∧
  e' = Z.max e (SpecFloat.fexp F64.prec F64.emax (SpecFloat.Zdigits2 m + e)).
Proof using Type.
  intros Hm. unfold SpecFloat.shr_fexp, SpecFloat.shr.
  destruct (SpecFloat.fexp _ _ _ - e) as [|n|n] eqn:Hn.
  - rewrite shr_m_of_loc. lia.
  - pose proof (iter_shr_1_bounds n (SpecFloat.shr_record_of_loc m l)) as H.
    rewrite shr_m_of_loc in H. specialize (H Hm). lia.
  - rewrite shr_m_of_loc. lia.
Qed.

Lemma round_nearest_even_bounds (m : Z) (l : SpecFloat.location) :
  m ≤ SpecFloat.round_nearest_even m l ≤ m + 1.
Proof using Type. destruct l as [|[]]; simpl; try lia. destruct (Z.even m); lia. Qed.

Lemma fexp_unfold (x : Z) :
  SpecFloat.fexp F64.prec F64.emax x = Z.max (x - 53) (-1074).
Proof using Type. reflexivity. Qed.

Lemma binary_round_aux_no_overflow (sx : bool) (mx ex : Z) (lx : SpecFloat.location) :
  0 ≤ mx → ex ≤ -52 → SpecFloat.Zdigits2 mx + ex ≤ 1 →
  SpecFloat.Zdigits2 mx ≤ 1075 →
  ∀ s, SpecFloat.binary_round_aux F64.prec F64.emax sx mx ex lx ≠ SpecFloat.S754_infinity s.
Proof using Type.
  intros Hm He Hd HD s. unfold SpecFloat.binary_round_aux.
  pose proof (shr_fexp_bounds mx ex lx Hm) as H1.
  destruct (SpecFloat.shr_fexp _ _ mx ex lx) as [mrs' e'].
  destruct H1 as [Hm' He'].
  set (m1 := SpecFloat.round_nearest_even _ _).
  pose proof (round_nearest_even_bounds (SpecFloat.shr_m mrs')
                (SpecFloat.loc_of_shr_record mrs')) as Hr. fold m1 in Hr.
  assert (0 ≤ m1) as Hm1 by lia.
  pose proof (shr_fexp_bounds m1 e' SpecFloat.loc_Exact Hm1) as H2.
  destruct (SpecFloat.shr_fexp _ _ m1 e' _) as [mrs'' e''].
  destruct H2 as [_ He''].
  assert (SpecFloat.Zdigits2 m1 ≤ SpecFloat.Zdigits2 mx + 1) as Hd1.
  { apply Zdigits2_le.
    - pose proof (Zdigits2_nonneg mx). lia.
    - pose proof (Zdigits2_lt_pow mx Hm) as Hlt.
      pose proof (Zdigits2_nonneg mx).
      rewrite Z.pow_add_r, Z.pow_1_r by lia. lia. }
  rewrite !fexp_unfold in *.
  destruct (SpecFloat.shr_m mrs''); [done| |done].
  replace (F64.emax - F64.prec) with 971 by reflexivity.
  destruct (e'' <=? 971) eqn:Hle; [done|]. apply Z.leb_gt in Hle. lia.
Qed.

Lemma digits2_pos_mono (p q : positive) :
  (p ≤ q)%positive → Zpos (SpecFloat.digits2_pos p) ≤ Zpos (SpecFloat.digits2_pos q).
Proof using Type.
  intros Hpq. pose proof (digits2_pos_bounds p) as [Hp _].
  pose proof (digits2_pos_bounds q) as [_ Hq].
  destruct (Z_le_gt_dec (Zpos (SpecFloat.digits2_pos p)) (Zpos (SpecFloat.digits2_pos q)))
    as [|Hgt]; [done|].
  exfalso.
  assert (2 ^ Zpos (SpecFloat.digits2_pos q) ≤ 2 ^ (Zpos (SpecFloat.digits2_pos p) - 1)).
  { apply Z.pow_le_mono_r; lia. }
  lia.
Qed.

Lemma SFdiv_fraction_no_overflow (sx sy : bool) (mx my : positive) :
  (mx ≤ my)%positive →
  ∀ s, SpecFloat.SFdiv F64.prec F64.emax
         (SpecFloat.S754_finite sx mx 0) (SpecFloat.S754_finite sy my 0)
       ≠ SpecFloat.S754_infinity s.
Proof using Type.
  intros Hle s. unfold SpecFloat.SFdiv, SpecFloat.SFdiv_core_binary.
  cbn [SpecFloat.Zdigits2].
  pose proof (digits2_pos_mono mx my Hle) as Hd.
  set (d1 := Zpos (SpecFloat.digits2_pos mx)) in *.
  set (d2 := Zpos (SpecFloat.digits2_pos my)) in *.
  rewrite fexp_unfold.
  replace (Z.min (Z.max (d1 + 0 - (d2 + 0) - 53) (-1074)) (0 - 0))
    with (Z.max (d1 - d2 - 53) (-1074)) by lia.
  set (e' := Z.max (d1 - d2 - 53) (-1074)).
  assert (-1074 ≤ e' ≤ -53) as He by lia.
  replace (0 - 0 - e') with (- e') by lia.
  destruct (- e') as [|n|n] eqn:Hn; [lia| |lia].
  rewrite Z.shiftl_mul_pow2 by lia. rewrite <- Hn.
  change IntDef.Z.div_eucl with Z.div_eucl.
  destruct (Z.div_eucl (Zpos mx * 2 ^ (- e')) (Zpos my)) as [q r] eqn:Hqr.
  assert (q = Zpos mx * 2 ^ (- e') / Zpos my) as Hq.
  { unfold Z.div. by rewrite Hqr. }
  assert (0 < 2 ^ (- e')) as Hpow by (apply Z.pow_pos_nonneg; lia).
  assert (0 ≤ q ≤ 2 ^ (- e')) as Hqb.
  { subst q. split.
    - apply Z.div_pos; lia.
    - apply Z.div_le_upper_bound; [lia|]. nia. }
  assert (SpecFloat.Zdigits2 q ≤ - e' + 1) as Hdq.
  { apply Zdigits2_le; [lia|]. rewrite Z.pow_add_r, Z.pow_1_r by lia. lia. }
  apply binary_round_aux_no_overflow; lia.
Qed.

Lemma true_div_fraction (a b : Z) :
  0 < b → - b ≤ a ≤ b →
  ∃ pct, F64.true_div a b = Ok pct.
Proof using Type.
  intros Hb Ha. unfold F64.true_div.
  destruct (b =? 0) eqn:Hb0; [lia|].
  destruct b as [|pb|pb]; [lia| |lia].
  destruct a as [|pa|pa]; simpl F64.of_int.
  - simpl. eauto.
  - pose proof (SFdiv_fraction_no_overflow false false pa pb) as H.
    destruct (SpecFloat.SFdiv _ _ _ _) as [| s | |]; eauto.
    exfalso. apply (H ltac:(lia) s). done.
  - pose proof (SFdiv_fraction_no_overflow true false pa pb) as H.
    destruct (SpecFloat.SFdiv _ _ _ _) as [| s | |]; eauto.
    exfalso. apply (H ltac:(lia) s). done.
Qed.

(** ** Grade bands *)

(** The literals of [grade_rank] are the binary64 numbers nearest to the
    decimal fractions they are written as. *)
Example literals_are_nearest :
  F64.true_div 1 1 = Ok F64.one ∧ F64.true_div 8 10 = Ok F64.lit_0_8 ∧
  F64.true_div 6 10 = Ok F64.lit_0_6 ∧ F64.true_div 4 10 = Ok F64.lit_0_4 ∧
  F64.true_div 100 1 = Ok F64.hundred.
Proof using Type. vm_compute. by split_and!. Qed.

Lemma grade_rank_positive_total (score total : Z) :
  0 < total →
  grade_rank score total = pct ← F64.true_div score total; Ok (band_of_pct pct).
Proof using Type. intros H. unfold grade_rank. destruct (total <=? 0) eqn:E; [lia|done]. Qed.

(** The five bands are characterised by the first comparison that holds. *)
Lemma band_of_pct_cases (pct : SpecFloat.spec_float) :
  let r := band_of_pct pct in
  (r = rank_excellent ↔ F64.eqb pct F64.one = true) ∧
  (r = rank_very_good ↔
     F64.eqb pct F64.one = false ∧ F64.leb F64.lit_0_8 pct = true) ∧
  (r = rank_good ↔
     F64.eqb pct F64.one = false ∧ F64.leb F64.lit_0_8 pct = false ∧
     F64.leb F64.lit_0_6 pct = true) ∧
  (r = rank_fair ↔
     F64.eqb pct F64.one = false ∧ F64.leb F64.lit_0_8 pct = false ∧
     F64.leb F64.lit_0_6 pct = false ∧ F64.leb F64.lit_0_4 pct = true) ∧
  (r = rank_beginner ↔
     F64.eqb pct F64.one = false ∧ F64.leb F64.lit_0_8 pct = false ∧
     F64.leb F64.lit_0_6 pct = false ∧ F64.leb F64.lit_0_4 pct = false) ∧
  r ≠ rank_unavailable.
Proof using Type.
  unfold band_of_pct.
  destruct (F64.eqb pct F64.one), (F64.leb F64.lit_0_8 pct),
    (F64.leb F64.lit_0_6 pct), (F64.leb F64.lit_0_4 pct);
    cbv zeta; split_and!; (done || (split; [done|intros; destruct_and?; done])).
Qed.

Lemma bands_agree_upto_100 : bands_agree_upto 100 = true.
Proof using Type. vm_compute. reflexivity. Qed.

Lemma forallb_elem_of {A} (f : A → bool) (l : list A) (x : A) :
  forallb f l = true → x ∈ l → f x = true.
Proof using Type. rewrite forallb_forall. intros H Hx. by apply H, list_elem_of_In. Qed.

Lemma bands_agree_upto_elem (n total : Z) :
  bands_agree_upto n = true → 0 ≤ total ≤ n → bands_agree total = true.
Proof using Type.
  unfold bands_agree_upto. intros H Ht.
  apply (forallb_elem_of _ _ total H), elem_of_seqZ. lia.
Qed.

Lemma bands_agree_elem (total score : Z) :
  bands_agree total = true → 0 ≤ score ≤ total →
  grade_rank score total = Ok (grade_exact score total).
Proof using Type.
  unfold bands_agree. intros H Hs.
  assert (score ∈ seqZ 0 (total + 1)) as Hin by (apply elem_of_seqZ; lia).
  pose proof (forallb_elem_of _ _ score H Hin) as H'. simpl in H'.
  destruct (grade_rank score total) as [r|]; [|done].
  apply bool_decide_eq_true in H'. by subst.
Qed.

(** On exact fractions the band is decided by integer comparisons, and the
    binary64 computation of [grade_rank] agrees with it on every score from 0
    to the total, for every total up to 100. *)
Lemma grade_rank_exact (score total : Z) :
  0 ≤ score ≤ total → total ≤ 100 →
  grade_rank score total = Ok (grade_exact score total).
Proof using Type.
  intros Hs Ht. apply bands_agree_elem; [|done].
  apply (bands_agree_upto_elem 100); [|lia]. exact bands_agree_upto_100.
Qed.

(** C6. [grade_rank] returns the "unavailable" band when [total <= 0].
    Otherwise, with [pct = score / total], it returns "Excelente" iff
    [pct == 1.0], else "Muito bom" iff [pct >= 0.8], else "Bom" iff
    [pct >= 0.6], else "Regular" iff [pct >= 0.4], else "Iniciante": the first
    comparison that holds decides. The division yields a [pct] whenever
    [|score| <= total]. In particular 10/10 is "Excelente", 8/10 "Muito bom",
    5/10 "Regular" and 0/0 "unavailable". *)
Theorem grade_rank_bands (score total : Z) :
  (total ≤ 0 → grade_rank score total = Ok rank_unavailable) ∧
  (0 < total →
   (- total ≤ score ≤ total → ∃ pct, F64.true_div score total = Ok pct) ∧
   (∀ pct, F64.true_div score total = Ok pct →
      ∃ r, grade_rank score total = Ok r ∧
        (r = rank_excellent ↔ F64.eqb pct F64.one = true) ∧
        (r = rank_very_good ↔
           F64.eqb pct F64.one = false ∧ F64.leb F64.lit_0_8 pct = true) ∧
        (r = rank_good ↔
           F64.eqb pct F64.one = false ∧ F64.leb F64.lit_0_8 pct = false ∧
           F64.leb F64.lit_0_6 pct = true) ∧
        (r = rank_fair ↔
           F64.eqb pct F64.one = false ∧ F64.leb F64.lit_0_8 pct = false ∧
           F64.leb F64.lit_0_6 pct = false ∧ F64.leb F64.lit_0_4 pct = true) ∧
        (r = rank_beginner ↔
           F64.eqb pct F64.one = false ∧ F64.leb F64.lit_0_8 pct = false ∧
           F64.leb F64.lit_0_6 pct = false ∧ F64.leb F64.lit_0_4 pct = false))) ∧
  grade_rank 10 10 = Ok rank_excellent ∧
  grade_rank 8 10 = Ok rank_very_good ∧
  grade_rank 5 10 = Ok rank_fair ∧
  grade_rank 0 0 = Ok rank_unavailable.
Proof using Type.
  split; [|split]; [| |by vm_compute].
  - intros H. unfold grade_rank. destruct (total <=? 0) eqn:E; [done|lia].
  - intros Ht. split.
    + intros Hs. by apply true_div_fraction.
    + intros pct Hpct. exists (band_of_pct pct).
      rewrite grade_rank_positive_total, Hpct by done. split; [done|].
      pose proof (band_of_pct_cases pct) as H. cbv zeta in H.
      destruct H as (? & ? & ? & ? & ? & _). done.
Qed.

(** ** Shuffling *)

Lemma swap_Permutation {A} (x : list A) (i j : nat) : swap x i j ≡ₚ x.
Proof using Type.
  unfold swap. destruct (x !! j) as [xj|] eqn:Hj; [|done].
  destruct (x !! i) as [xi|] eqn:Hi; [|done].
  by apply Permutation_insert_swap.
Qed.

Lemma shuffle_from_Permutation {A} (i : nat) (x : list A) (g : rng) :
  (shuffle_from i x g).1 ≡ₚ x.
Proof using Type.
  revert x g. induction i as [|i IH]; intros x g; [done|].
  cbn [shuffle_from]. destruct (randbelow (S (S i)) g) as [j g'].
  rewrite IH. apply swap_Permutation.
Qed.

Lemma random_shuffle_Permutation {A} (x : list A) (g : rng) :
  (random_shuffle x g).1 ≡ₚ x.
Proof using Type. apply shuffle_from_Permutation. Qed.

(** [shuffle] always returns, with a permutation, and touches nothing but the
    random source. *)
Lemma shuffle_spec {A} (x : list A) (w : world) :
  ∃ x' g, shuffle x w = (Ok x', with_random g w) ∧ x' ≡ₚ x.
Proof using Type.
  unfold shuffle. pose proof (random_shuffle_Permutation x (w_random w)) as H.
  destruct (random_shuffle x (w_random w)) as [x' g]. by exists x', g.
Qed.

Lemma enumerate_fst {A} (l : list A) :
  (enumerate l).*1 = Z.of_nat <$> seq 0 (length l).
Proof using Type.
  unfold enumerate. rewrite fmap_imap.
  rewrite (imap_ext _ (λ i _, Z.of_nat i)) by done.
  rewrite <- (imap_seq_0 l Z.of_nat). done.
Qed.

Lemma enumerate_elem {A} (l : list A) (k : Z) (x : A) :
  (k, x) ∈ enumerate l ↔ 0 ≤ k ∧ l !! Z.to_nat k = Some x.
Proof using Type.
  unfold enumerate. rewrite elem_of_lookup_imap. split.
  - intros (i & y & [= -> ->] & Hl). rewrite Nat2Z.id. split; [lia|done].
  - intros [Hk Hl]. exists (Z.to_nat k), x. rewrite Z2Nat.id by done. done.
Qed.

Lemma int_eq_value_int (n : Z) (ai : value) (i : Z) :
  int_value ai = Some i → int_eq_value n ai = (n =? i).
Proof using Type. destruct ai; intros; simplify_eq/=; done. Qed.

(** A list that is a permutation of [0, ..., n-1], read as the map from a
    position to its element, is a bijection on the positions below [n]. *)
Lemma permutation_of_seq_bijective (σ : list nat) (n : nat) :
  σ ≡ₚ seq 0 n →
  (∀ new old, σ !! new = Some old → (new < n)%nat ∧ (old < n)%nat) ∧
  (∀ old, (old < n)%nat →
     ∃ new, σ !! new = Some old ∧ ∀ new', σ !! new' = Some old → new' = new).
Proof using Type.
  intros Hσ.
  assert (length σ = n) as Hlen by (by rewrite Hσ, length_seq).
  assert (NoDup σ) as Hnd by (rewrite Hσ; apply NoDup_seq).
  split.
  - intros new old H. split.
    + apply lookup_lt_Some in H. lia.
    + apply list_elem_of_lookup_2 in H. rewrite Hσ in H.
      apply elem_of_seq in H. lia.
  - intros old Hold.
    assert (old ∈ σ) as Hin by (rewrite Hσ; apply elem_of_seq; lia).
    apply list_elem_of_lookup in Hin as [new Hnew].
    exists new. split; [done|]. intros new' Hnew'.
    by apply (NoDup_lookup σ new' new old).
Qed.

Lemma shuffle_question_run (q : question) (w : world)
    (opts : list value) (ai : value) (i : Z) :
  q !! "options" = Some (VList opts) →
  q !! "answer_index" = Some ai → int_value ai = Some i →
  0 ≤ i < Z.of_nat (length opts) →
  ∃ (indexed : list (Z * value)) (jn : nat) (x : value) (g : rng),
    indexed ≡ₚ enumerate opts ∧
    indexed !! jn = Some (i, x) ∧
    (∀ j' y, indexed !! j' = Some (i, y) → j' = jn) ∧
    shuffle_question q w =
      (Ok (<["answer_index" := VInt (Z.of_nat jn)]>
             (<["options" := VList indexed.*2]> q)),
       with_random g w).
Proof using Type.
  intros Ho Ha Hi Hr. unfold shuffle_question.
  unfold mbind at 1, M_bind, lift, getitem. rewrite Ho.
  unfold mbind at 1, M_bind. rewrite Ha.
  unfold mbind at 1, M_bind. cbn [py_iter].
  unfold mbind at 1, M_bind.
  destruct (shuffle_spec (enumerate opts) w) as (indexed & g & -> & Hperm).
  unfold mbind at 1, M_bind, next_index.
  assert ((i, default VNone (opts !! Z.to_nat i)) ∈ indexed) as Hin.
  { rewrite Hperm. apply enumerate_elem. split; [lia|].
    destruct (lookup_lt_is_Some_2 opts (Z.to_nat i)) as [y ->]; [lia|done]. }
  destruct (list_find_elem_of (λ p, Is_true (int_eq_value p.1 ai)) indexed _ Hin)
    as [[jn [k x]] Hfind].
  { simpl. rewrite (int_eq_value_int _ _ _ Hi). apply Is_true_true, Z.eqb_refl. }
  rewrite Hfind. apply list_find_Some in Hfind as (Hjn & Hk & _).
  simpl in Hk. rewrite (int_eq_value_int _ _ _ Hi) in Hk.
  apply Is_true_true, Z.eqb_eq in Hk. subst k.
  exists indexed, jn, x, g. split_and!; [done|done| |done].
  intros j' y Hj'.
  assert (NoDup indexed.*1) as Hnd.
  { rewrite Hperm, enumerate_fst. apply NoDup_fmap; [apply _|apply NoDup_seq]. }
  apply (NoDup_lookup indexed.*1 j' jn i); [done|..].
  - by rewrite list_lookup_fmap, Hj'.
  - by rewrite list_lookup_fmap, Hjn.
Qed.

(** C2. For a question with four options and an index [i] in [0,3],
    [shuffle_question] returns the question with its options permuted and its
    index remapped: the new option list is a permutation of the old one (the
    same multiset of texts); [σ], which gives for each new position the old
    position of the option now standing there, is a bijection on
    {0,1,2,3}; and the new index [j] is the one position that holds the
    option that was correct, so the text at [j] is the text that was at [i].
    Nothing but the random source changes in the world. *)
Theorem shuffle_question_permutes (q : question) (w : world)
    (opts : list value) (ai : value) (i : Z) :
  q !! "options" = Some (VList opts) → length opts = 4%nat →
  q !! "answer_index" = Some ai → int_value ai = Some i → 0 ≤ i ≤ 3 →
  ∃ (opts' : list value) (j : Z) (σ : list nat) (g : rng),
    shuffle_question q w =
      (Ok (<["answer_index" := VInt j]> (<["options" := VList opts']> q)),
       with_random g w) ∧
    opts' ≡ₚ opts ∧
    σ ≡ₚ [0; 1; 2; 3]%nat ∧
    (∀ new old, σ !! new = Some old → (new < 4)%nat ∧ (old < 4)%nat) ∧
    (∀ old, (old < 4)%nat →
       ∃ new, σ !! new = Some old ∧ ∀ new', σ !! new' = Some old → new' = new) ∧
    (∀ new old, σ !! new = Some old → opts' !! new = opts !! old) ∧
    0 ≤ j ≤ 3 ∧
    (∀ new, σ !! new = Some (Z.to_nat i) ↔ new = Z.to_nat j) ∧
    opts' !! Z.to_nat j = opts !! Z.to_nat i.
Proof using Type.
  intros Ho Hlen Ha Hi Hr.
  destruct (shuffle_question_run q w opts ai i Ho Ha Hi ltac:(lia))
    as (indexed & jn & x & g & Hperm & Hjn & Huniq & Hrun).
  set (σ := Z.to_nat <$> indexed.*1).
  assert (σ ≡ₚ seq 0 4) as Hσ.
  { unfold σ. rewrite Hperm, enumerate_fst, Hlen, <- list_fmap_compose.
    rewrite (list_fmap_ext _ id (seq 0 4)); [by rewrite list_fmap_id|].
    intros ? ? _. simpl. apply Nat2Z.id. }
  assert (∀ new old, σ !! new = Some old → indexed.*2 !! new = opts !! old) as Hmap.
  { intros new old. unfold σ. rewrite !list_lookup_fmap.
    destruct (indexed !! new) as [[k y]|] eqn:Hnew; [|done]. simpl.
    intros [= <-]. apply list_elem_of_lookup_2 in Hnew.
    rewrite Hperm in Hnew. apply enumerate_elem in Hnew as [_ ->]. done. }
  assert (σ !! jn = Some (Z.to_nat i)) as Hσj.
  { unfold σ. by rewrite !list_lookup_fmap, Hjn. }
  destruct (permutation_of_seq_bijective σ 4 Hσ) as [Hrange Hbij].
  exists indexed.*2, (Z.of_nat jn), σ, g. rewrite Nat2Z.id.
  split_and!; try done.
  - rewrite Hperm. unfold enumerate. rewrite fmap_imap.
    rewrite (imap_ext _ (const id)) by done. by rewrite imap_const, list_fmap_id.
  - apply Hrange in Hσj. lia.
  - apply Hrange in Hσj. lia.
  - intros new. split; [|by intros ->].
    intros Hnew. destruct (Hbij (Z.to_nat i)) as (n0 & _ & Hu); [lia|].
    by rewrite (Hu _ Hnew), (Hu _ Hσj).
  - by apply Hmap.
Qed.

(** ** Answering a question *)

Lemma letter_index_correct (chosen : string) (i : Z) :
  chosen ∈ letter_set → 0 ≤ i ≤ 3 →
  ∃ correct_letter,
    list_getitem letters i = Ok correct_letter ∧
    (chosen = correct_letter ↔ letter_index chosen = Some i).
Proof using Type.
  intros Hc Hi. unfold letter_set in Hc.
  assert (i = 0 ∨ i = 1 ∨ i = 2 ∨ i = 3) as Hcases by lia.
  rewrite !elem_of_union, !elem_of_singleton in Hc.
  destruct Hc as [[[-> | ->] | ->] | ->];
    destruct Hcases as [-> | [-> | [-> | ->]]];
    (eexists; split; [reflexivity|]; vm_compute; split; congruence).
Qed.

Lemma valid_question_fields (q : question) :
  valid_question q →
  ∃ qid qtext expl ai i,
    q !! "id" = Some qid ∧ q !! "question" = Some qtext ∧
    q !! "explanation" = Some expl ∧ q !! "answer_index" = Some ai ∧
    int_value ai = Some i ∧ 0 ≤ i ≤ 3.
Proof using Type.
  intros (Hreq & _ & ai & Ha & i & Hi & Hr).
  destruct (required_fields_lookup q "id" Hreq) as [qid ?]; [by vm_compute|].
  destruct (required_fields_lookup q "question" Hreq) as [qtext ?]; [by vm_compute|].
  destruct (required_fields_lookup q "explanation" Hreq) as [expl ?]; [by vm_compute|].
  by exists qid, qtext, expl, ai, i.
Qed.

Lemma list_getitem_lookup {A} (l : list A) (i : Z) (x : A) :
  0 ≤ i → l !! Z.to_nat i = Some x → list_getitem l i = Ok x.
Proof using Type.
  intros Hi Hl. unfold list_getitem.
  pose proof (lookup_lt_Some _ _ _ Hl).
  destruct (i <? 0) eqn:E1; [lia|].
  destruct ((i <? 0) || (Z.of_nat (length l) <=? i)) eqn:E2; [lia|].
  by rewrite Hl.
Qed.

(** C5. When the normalised choice is not one of A, B, C, D, [answer] asks
    again for the same question and changes nothing in the quiz: the world
    after the request is the world before it with one more flashed message.
    The quiz state (position, score, answer log), the persisted flag, the
    player name and the amount are the same, and so is the leaderboard. *)
Theorem answer_invalid_choice (w : world) (f : form) (qs : quiz_state) :
  s_quiz (w_session w) = Some qs →
  idx qs < Z.of_nat (length (questions qs)) →
  str_upper (str_strip (default "" (f_choice f))) ∉ letter_set →
  ∃ w',
    answer f w = (Ok (Redirect "quiz"), w') ∧
    w' = with_session
           (add_flash "error" "Selecione uma alternativa válida (A, B, C ou D)."
              (w_session w)) w ∧
    s_quiz (w_session w') = Some qs ∧
    s_score_saved (w_session w') = s_score_saved (w_session w) ∧
    s_player_name (w_session w') = s_player_name (w_session w) ∧
    s_amount (w_session w') = s_amount (w_session w) ∧
    w_highscores w' = w_highscores w.
Proof using Type.
  intros Hq Hidx Hbad. eexists. split; [|split; [reflexivity|]].
  - unfold answer, current_quiz, get_session.
    unfold mbind at 1, M_bind. unfold mbind at 1, M_bind. cbn [mret M_ret].
    rewrite Hq. destruct (_ <=? idx qs) eqn:E; [lia|].
    rewrite bool_decide_eq_false_2 by done. cbn [negb].
    reflexivity.
  - simpl. done.
Qed.

Lemma answer_run (w : world) (f : form) (qs : quiz_state)
    (q : question) (qid qtext expl ai : value) (correct_letter : string) :
  let chosen := str_upper (str_strip (default "" (f_choice f))) in
  let is_correct := bool_decide (chosen = correct_letter) in
  s_quiz (w_session w) = Some qs →
  0 ≤ idx qs < Z.of_nat (length (questions qs)) →
  chosen ∈ letter_set →
  questions qs !! Z.to_nat (idx qs) = Some q →
  q !! "id" = Some qid → q !! "question" = Some qtext →
  q !! "explanation" = Some expl → q !! "answer_index" = Some ai →
  list_getitem_value letters ai = Ok correct_letter →
  answer f w =
    (Ok (Redirect "quiz"),
     with_session
       (set_quiz
          (Some (QuizState (questions qs) (idx qs + 1)
                   (if is_correct then score qs + 1 else score qs)
                   (answers qs ++
                      [AnswerRecord qid qtext chosen correct_letter is_correct expl])
                   (started_at qs)))
          (w_session w)) w).
Proof using Type.
  intros chosen is_correct Hq Hidx Hc Hl Hid Hqt Hex Hai Hlet.
  unfold answer, current_quiz, get_session.
  unfold mbind at 1, M_bind. unfold mbind at 1, M_bind. cbn [mret M_ret].
  rewrite Hq. destruct (_ <=? idx qs) eqn:E; [lia|].
  fold chosen. rewrite bool_decide_eq_true_2 by done. cbn [negb].
  rewrite (list_getitem_lookup _ _ _ (proj1 Hidx) Hl).
  unfold mbind, M_bind, lift, getitem. rewrite Hai, Hlet, Hid, Hqt, Hex.
  reflexivity.
Qed.

(** C1. In a session that is not finished, with a choice that normalises to
    one of A, B, C, D, [answer] moves the position forward by exactly one,
    appends exactly one record to the answer log, and adds one to the score
    if and only if the letter stands for the index of the correct option of
    the current question (A=0, B=1, C=2, D=3); otherwise the score stays. The
    record holds the question, the letter chosen, the correct letter and
    whether they agree. *)
Theorem answer_valid_choice (w : world) (f : form) (qs : quiz_state) :
  let chosen := str_upper (str_strip (default "" (f_choice f))) in
  s_quiz (w_session w) = Some qs →
  0 ≤ idx qs < Z.of_nat (length (questions qs)) →
  Forall valid_question (questions qs) →
  chosen ∈ letter_set →
  ∃ (q : question) (i : Z) (record : answer_record) (qs' : quiz_state),
    questions qs !! Z.to_nat (idx qs) = Some q ∧
    int_value (dict_get q "answer_index") = Some i ∧
    answer f w =
      (Ok (Redirect "quiz"),
       with_session (set_quiz (Some qs') (w_session w)) w) ∧
    idx qs' = idx qs + 1 ∧
    answers qs' = answers qs ++ [record] ∧
    (letter_index chosen = Some i → score qs' = score qs + 1) ∧
    (letter_index chosen ≠ Some i → score qs' = score qs) ∧
    questions qs' = questions qs ∧
    started_at qs' = started_at qs ∧
    a_chosen record = chosen ∧
    list_getitem letters i = Ok (a_correct record) ∧
    (a_is_correct record = true ↔ letter_index chosen = Some i) ∧
    a_id record = dict_get q "id" ∧
    a_question record = dict_get q "question" ∧
    a_explanation record = dict_get q "explanation".
Proof using Type.
  intros chosen Hq Hidx Hvalid Hc.
  destruct (lookup_lt_is_Some_2 (questions qs) (Z.to_nat (idx qs)))
    as [q Hl]; [lia|].
  pose proof (Forall_lookup_1 _ _ _ _ Hvalid Hl) as Hv.
  destruct (valid_question_fields q Hv)
    as (qid & qtext & expl & ai & i & Hid & Hqt & Hex & Hai & Hi & Hr).
  destruct (letter_index_correct chosen i Hc Hr) as (correct_letter & Hlet & Hiff).
  assert (list_getitem_value letters ai = Ok correct_letter) as Hlet'.
  { unfold list_getitem_value, int_of. rewrite Hi. destruct ai; simplify_eq/=; done. }
  pose proof (answer_run w f qs q qid qtext expl ai correct_letter
                Hq Hidx Hc Hl Hid Hqt Hex Hai Hlet') as Hrun.
  cbv zeta in Hrun. fold chosen in Hrun.
  eexists q, i, _, _. split; [done|]. split.
  { unfold dict_get. by rewrite Hai. }
  split; [exact Hrun|]. unfold dict_get. rewrite Hid, Hqt, Hex. simpl.
  split_and!; try done.
  - intros H. apply Hiff in H. by rewrite bool_decide_eq_true_2.
  - intros H. rewrite bool_decide_eq_false_2; [done|]. by rewrite Hiff.
  - cbn [a_is_correct]. by rewrite bool_decide_eq_true.
Qed.


(** ** Building a session *)

(** Shuffling keeps a question well formed. *)
Lemma shuffle_question_valid (q : question) (w : world) :
  valid_question q →
  ∃ q' g, shuffle_question q w = (Ok q', with_random g w) ∧ valid_question q'.
Proof using Type.
  intros (Hreq & (opts & Ho & Hlen) & ai & Ha & i & Hi & Hr).
  destruct (shuffle_question_run q w opts ai i Ho Ha Hi ltac:(lia))
    as (indexed & jn & x & g & Hperm & Hjn & _ & Hrun).
  eexists _, g. split; [exact Hrun|].
  assert (length indexed = 4%nat) as Hlen'.
  { rewrite Hperm. unfold enumerate. by rewrite length_imap. }
  split_and!.
  - unfold has_required_fields in Hreq |- *. rewrite !dom_insert_L.
    clear -Hreq. set_solver.
  - exists indexed.*2. split; [|by rewrite length_fmap].
    rewrite lookup_insert_ne by done. by rewrite lookup_insert_eq.
  - exists (VInt (Z.of_nat jn)). split; [by rewrite lookup_insert_eq|].
    exists (Z.of_nat jn). split; [done|].
    apply lookup_lt_Some in Hjn. lia.
Qed.

Lemma bind_run {A B} (m : M A) (f : A → M B) (w : world) :
  (m ≫= f) w =
  match m w with
  | (Ok a, w') => f a w'
  | (Raise e, w') => (Raise e, w')
  end.
Proof using Type. reflexivity. Qed.

Lemma mapM_cons_M {A B} (f : A → M B) (x : A) (l : list A) :
  mapM f (x :: l) = y ← f x; k ← mapM f l; mret (y :: k).
Proof using Type. reflexivity. Qed.

Lemma mapM_shuffle_question_valid (l : list question) (w : world) :
  Forall valid_question l →
  ∃ l' g, mapM shuffle_question l w = (Ok l', with_random g w) ∧
          Forall valid_question l' ∧ length l' = length l.
Proof using Type.
  intros Hl. revert w. induction Hl as [|q l Hq Hl IH]; intros w.
  - exists [], (w_random w). split; [|done]. by destruct w.
  - destruct (shuffle_question_valid q w Hq) as (q' & g & Hrun & Hq').
    destruct (IH (with_random g w)) as (l' & g' & Hrun' & Hl' & Hlen).
    exists (q' :: l'), g'. split; [|split; [by constructor|simpl; by rewrite Hlen]].
    rewrite mapM_cons_M, bind_run, Hrun, bind_run, Hrun'. reflexivity.
Qed.

Lemma slice_to_take {A} (l : list A) (n : Z) :
  0 ≤ n → slice_to l n = take (Z.to_nat n) l.
Proof using Type. intros Hn. unfold slice_to. destruct (n <? 0) eqn:E; [lia|done]. Qed.

(** [build_quiz_session] fails exactly when the loader fails. When the bank
    loads, the new quiz holds the shuffled copies of [max 1 (min amount n)]
    questions of the bank (of all of them if the bank has fewer), starts at
    position 0 with score 0 and an empty log, and the persisted flag is off. *)
Lemma build_quiz_session_run (amount : Z) (w : world) :
  match load_questions (w_questions_file w) with
  | Raise e => build_quiz_session amount w = (Raise e, w)
  | Ok bank =>
      ∃ prepared g,
        build_quiz_session amount w =
          (Ok (),
           with_session
             (set_score_saved false
                (set_quiz (Some (QuizState prepared 0 0 [] (w_clock w))) (w_session w)))
             (with_random g w)) ∧
        Forall valid_question prepared ∧
        length prepared =
          (Z.to_nat (Z.max 1 (Z.min amount (Z.of_nat (length bank)))) `min` length bank)%nat
  end.
Proof using Type.
  unfold build_quiz_session, read_questions. rewrite bind_run.
  destruct (load_questions (w_questions_file w)) as [bank|e] eqn:Hb; [|done].
  assert (Forall valid_question bank) as Hvalid.
  { destruct (w_questions_file w) as [data|]; [|done]. simpl in Hb.
    destruct (check_questions data) as [[]|] eqn:Hc; [|done].
    apply check_questions_Ok in Hc. by simplify_eq/=. }
  rewrite bind_run.
  destruct (shuffle_spec bank w) as (shuffled & g & -> & Hperm).
  set (n := Z.max 1 (Z.min amount (Z.of_nat (length shuffled)))).
  rewrite slice_to_take by lia.
  assert (Forall valid_question (take (Z.to_nat n) shuffled)) as Hsel.
  { apply Forall_take. by rewrite Hperm. }
  destruct (mapM_shuffle_question_valid _ (with_random g w) Hsel)
    as (prepared & g' & Hrun & Hprep & Hlen).
  rewrite bind_run, Hrun.
  exists prepared, g'. split; [reflexivity|]. split; [done|].
  rewrite Hlen, length_take. subst n. by rewrite Hperm.
Qed.

Lemma load_questions_valid (bank : list question) :
  Forall valid_question bank → load_questions (Some bank) = Ok bank.
Proof using Type. intros H. apply check_questions_Ok in H. simpl. by rewrite H. Qed.

(** C4. For every requested amount [a] and every bank of [n >= 1] well-formed
    questions, [build_quiz_session] returns, and the session it stores has
    [max 1 (min a n)] questions, position 0, score 0, an empty answer log and
    the persisted flag set to false. Its questions are well formed, its start
    time is the reading of the clock, and the leaderboard is untouched. *)
Theorem build_quiz_session_clamps (amount : Z) (w : world) (bank : list question) :
  w_questions_file w = Some bank →
  Forall valid_question bank →
  (1 ≤ length bank)%nat →
  ∃ w' qs,
    build_quiz_session amount w = (Ok (), w') ∧
    s_quiz (w_session w') = Some qs ∧
    Z.of_nat (length (questions qs)) = Z.max 1 (Z.min amount (Z.of_nat (length bank))) ∧
    idx qs = 0 ∧ score qs = 0 ∧ answers qs = [] ∧
    s_score_saved (w_session w') = Some false ∧
    started_at qs = w_clock w ∧
    Forall valid_question (questions qs) ∧
    w_highscores w' = w_highscores w.
Proof using Type.
  intros Hfile Hvalid Hn.
  pose proof (build_quiz_session_run amount w) as Hrun.
  rewrite Hfile, (load_questions_valid bank Hvalid) in Hrun.
  destruct Hrun as (prepared & g & Hrun & Hprep & Hlen).
  eexists _, _. split; [exact Hrun|].
  split; [reflexivity|]. split; [cbn [questions]; lia|]. by split_and!.
Qed.


(** ** The result view and the leaderboard *)

(** Unfolds the monadic plumbing of a handler. *)
Ltac unfold_M :=
  unfold current_quiz, flash, modify_session, available_questions;
  unfold get_session, put_session, utcnow, insert_highscore, lift;
  unfold mbind, M_bind, mret, M_ret.

(** What a request that keeps the session can do to the persisted flag and
    to the leaderboard: a flag that is set stays set and then no row is
    written; and a row is written only together with setting the flag. *)
Lemma index_frame (w : world) : (index w).2 = w.
Proof using Type. reflexivity. Qed.

Lemma quiz_frame (w : world) :
  s_score_saved (w_session (quiz w).2) = s_score_saved (w_session w) ∧
  s_quiz (w_session (quiz w).2) = s_quiz (w_session w) ∧
  w_highscores (quiz w).2 = w_highscores w.
Proof using Type.
  unfold quiz. unfold_M. repeat case_match; simplify_eq/=; done.
Qed.

Lemma answer_frame (f : form) (w : world) :
  s_score_saved (w_session (answer f w).2) = s_score_saved (w_session w) ∧
  w_highscores (answer f w).2 = w_highscores w.
Proof using Type.
  unfold answer. unfold_M. repeat case_match; simplify_eq/=; done.
Qed.

(** The three things [result] can do to the world: nothing (the flag is set,
    or the grade cannot be computed), flash that no quiz is active, or write
    one row and set the flag. *)
Lemma result_effect (w : world) :
  (result w).2 = w ∨
  (s_quiz (w_session w) = None ∧
   ∃ message, (result w).2 = with_session (add_flash "warning" message (w_session w)) w) ∨
  (s_score_saved (w_session w) ≠ Some true ∧
   ∃ row, (result w).2 =
            with_session (set_score_saved true (w_session w))
              (with_highscores (w_highscores w ++ [row]) w)).
Proof using Type.
  unfold result. unfold_M.
  destruct (s_quiz (w_session w)) as [qs|] eqn:Hq.
  - destruct (percent_of _ _) as [percent|]; [|by left].
    destruct (grade_rank _ _) as [rk|]; [|by left].
    destruct (s_score_saved (w_session w)) as [[|]|] eqn:Hs; simpl.
    + by left.
    + right; right. split; [done|]. eexists. reflexivity.
    + right; right. split; [done|]. eexists. reflexivity.
  - right; left. split; [done|]. eexists. reflexivity.
Qed.

(** On a quiz whose score lies between 0 and the number of questions, the
    percentage and the grade are computed without error. *)
Lemma percent_and_grade (score total : Z) :
  0 ≤ score ≤ total →
  ∃ percent rk, percent_of score total = Ok percent ∧ grade_rank score total = Ok rk.
Proof using Type.
  intros Hs. unfold percent_of, grade_rank.
  destruct (total =? 0) eqn:E0.
  - apply Z.eqb_eq in E0. subst. simpl. eauto.
  - apply Z.eqb_neq in E0. destruct (total <=? 0) eqn:E1; [lia|].
    destruct (true_div_fraction score total) as [pct ->]; [lia..|].
    simpl. eauto.
Qed.

(** The first result view of a session writes its row. *)
Lemma result_writes (w : world) (qs : quiz_state) :
  s_quiz (w_session w) = Some qs →
  s_score_saved (w_session w) ≠ Some true →
  0 ≤ score qs ≤ Z.of_nat (length (questions qs)) →
  ∃ percent rk,
    percent_of (score qs) (Z.of_nat (length (questions qs))) = Ok percent ∧
    grade_rank (score qs) (Z.of_nat (length (questions qs))) = Ok rk ∧
    result w =
      (Ok (RenderResult (player_name (w_session w)) (score qs)
             (Z.of_nat (length (questions qs))) percent rk (answers qs)),
       with_session (set_score_saved true (w_session w))
         (with_highscores
            (w_highscores w ++
               [Highscore (player_name (w_session w)) (score qs)
                  (Z.of_nat (length (questions qs))) percent (w_clock w)]) w)).
Proof using Type.
  intros Hq Hflag Hs.
  destruct (percent_and_grade _ _ Hs) as (percent & rk & Hp & Hr).
  exists percent, rk. split; [done|]. split; [done|].
  unfold result. unfold_M. rewrite Hq, Hp, Hr.
  destruct (s_score_saved (w_session w)) as [[|]|]; done.
Qed.

(** A request that keeps the session leaves a set flag set and then writes
    nothing; and whenever it writes, it writes one row and sets the flag. *)
Lemma same_session_step (r : request) (w : world) :
  starts_session r = false →
  (s_score_saved (w_session w) = Some true →
   s_score_saved (w_session (after r w)) = Some true ∧
   w_highscores (after r w) = w_highscores w) ∧
  (w_highscores (after r w) = w_highscores w ∨
   ∃ row, w_highscores (after r w) = w_highscores w ++ [row] ∧
          s_score_saved (w_session (after r w)) = Some true).
Proof using Type.
  intros Hr. unfold after. destruct r as [|f| |f| |]; try done; cbn [handle].
  - rewrite index_frame. auto.
  - destruct (quiz_frame w) as (-> & _ & ->). auto.
  - destruct (answer_frame f w) as (-> & ->). auto.
  - destruct (result_effect w) as [-> | [(_ & m & ->) | (Hf & row & ->)]]; auto.
    split; [done|]. right. by exists row.
Qed.

Lemma same_session_trace (rs : list request) (w : world) :
  Forall (λ r, starts_session r = false) rs →
  (s_score_saved (w_session w) = Some true →
   s_score_saved (w_session (after_all rs w)) = Some true ∧
   w_highscores (after_all rs w) = w_highscores w) ∧
  (w_highscores (after_all rs w) = w_highscores w ∨
   ∃ row, w_highscores (after_all rs w) = w_highscores w ++ [row] ∧
          s_score_saved (w_session (after_all rs w)) = Some true).
Proof using Type.
  intros Hrs. revert w. induction Hrs as [|r rs Hr Hrs IH]; intros w.
  - simpl. auto.
  - unfold after_all. cbn [foldl]. fold (after_all rs (after r w)).
    destruct (same_session_step r w Hr) as [Hset Hrow].
    destruct (IH (after r w)) as [IHset IHrow]. split.
    + intros Hf. destruct (Hset Hf) as [Hf' E].
      destruct (IHset Hf') as [? ->]. auto.
    + destruct Hrow as [E | (row & Hrow & Hf)].
      * by rewrite E in IHrow.
      * destruct (IHset Hf) as [Hf' ->]. right. by exists row.
Qed.

(** C7. A session writes at most one leaderboard row, however often its
    result is viewed: over any sequence of requests that does not start a new
    session (result views, quiz views, answers, the index page), the
    leaderboard grows by at most one row, and by none once the persisted flag
    is set. Two consecutive result views of a session whose flag is not set
    write exactly one row, the first one. *)
Theorem result_writes_at_most_once (w : world) :
  (∀ rs, Forall (λ r, starts_session r = false) rs →
     ∃ rows, w_highscores (after_all rs w) = w_highscores w ++ rows ∧
             (length rows ≤ 1)%nat ∧
             (s_score_saved (w_session w) = Some true → rows = [])) ∧
  (∀ qs, s_quiz (w_session w) = Some qs →
     s_score_saved (w_session w) ≠ Some true →
     0 ≤ score qs ≤ Z.of_nat (length (questions qs)) →
     ∃ row, w_highscores (after GetResult w) = w_highscores w ++ [row] ∧
            s_score_saved (w_session (after GetResult w)) = Some true ∧
            w_highscores (after_all [GetResult; GetResult] w) = w_highscores w ++ [row]).
Proof using Type.
  split.
  - intros rs Hrs. destruct (same_session_trace rs w Hrs) as [Hset Hrow].
    destruct Hrow as [E | (row & E & _)].
    + exists []. rewrite app_nil_r. split_and!; [done|simpl; lia|done].
    + exists [row]. split_and!; [done|simpl; lia|].
      intros Hf. destruct (Hset Hf) as [_ E']. rewrite E' in E.
      apply (f_equal length) in E. rewrite length_app in E. simpl in E. lia.
  - intros qs Hq Hf Hs.
    destruct (result_writes w qs Hq Hf Hs) as (percent & rk & _ & _ & Hrun).
    eexists. unfold after_all, after. cbn [foldl handle]. rewrite Hrun.
    cbn [snd]. split; [reflexivity|]. split; [reflexivity|].
    destruct (result_effect
                (with_session (set_score_saved true (w_session w))
                   (with_highscores
                      (w_highscores w ++
                         [Highscore (player_name (w_session w)) (score qs)
                            (Z.of_nat (length (questions qs))) percent (w_clock w)]) w)))
      as [-> | [(Hn & _) | (Hn & _)]]; [done| |done].
    simpl in Hn. congruence.
Qed.


(** ** The invariant of a session *)

Lemma correct_answers_snoc (log : list answer_record) (a : answer_record) :
  correct_answers (log ++ [a]) =
  correct_answers log + (if a_is_correct a then 1 else 0).
Proof using Type.
  unfold correct_answers. rewrite List.filter_app, length_app. simpl.
  destruct (a_is_correct a); simpl; lia.
Qed.

Lemma correct_answers_bounds (log : list answer_record) :
  0 ≤ correct_answers log ≤ Z.of_nat (length log).
Proof using Type.
  unfold correct_answers. pose proof (List.filter_length_le a_is_correct log). lia.
Qed.

(** What [answer] does to the quiz of the session: it leaves it as it is, or
    it stores the next state, one position further with one more record. *)
Lemma answer_effect (f : form) (w : world) :
  s_quiz (w_session (answer f w).2) = s_quiz (w_session w) ∨
  ∃ qs a,
    s_quiz (w_session w) = Some qs ∧
    idx qs < Z.of_nat (length (questions qs)) ∧
    s_quiz (w_session (answer f w).2) =
      Some (QuizState (questions qs) (idx qs + 1)
              (if a_is_correct a then score qs + 1 else score qs)
              (answers qs ++ [a]) (started_at qs)).
Proof using Type.
  unfold answer. unfold_M.
  destruct (s_quiz (w_session w)) as [qs|] eqn:Hq; [|by left].
  destruct (_ <=? idx qs) eqn:E; [by left|].
  destruct (negb _); [by left|].
  repeat case_match; simplify_eq/=; try (by left).
  all: right;
    first [ eexists qs, (AnswerRecord _ _ _ _ true _);
            split; [done|]; split; [lia|]; reflexivity
          | eexists qs, (AnswerRecord _ _ _ _ false _);
            split; [done|]; split; [lia|]; reflexivity ].
Qed.

Lemma answer_invariant (f : form) (w : world) :
  (∀ qs, s_quiz (w_session w) = Some qs → session_invariant qs) →
  ∀ qs, s_quiz (w_session (answer f w).2) = Some qs → session_invariant qs.
Proof using Type.
  intros Hinv qs' Hq'.
  destruct (answer_effect f w) as [E | (qs & a & Hq & Hidx & E)].
  - apply Hinv. congruence.
  - rewrite E in Hq'. simplify_eq. destruct (Hinv qs Hq) as (Hi & Hl & Hs).
    unfold session_invariant. cbn [idx questions answers score].
    rewrite length_app, correct_answers_snoc. simpl.
    split_and!; [lia..|]. destruct (a_is_correct a); lia.
Qed.

Lemma answer_keeps_quiz (f : form) (w : world) :
  is_Some (s_quiz (w_session w)) → is_Some (s_quiz (w_session (answer f w).2)).
Proof using Type.
  intros Hq. destruct (answer_effect f w) as [-> | (? & ? & _ & _ & ->)]; eauto.
Qed.

(** What [build_quiz_session] does to the quiz of the session: nothing when
    the loader fails, a fresh quiz otherwise. *)
Lemma build_quiz_session_effect (amount : Z) (w : world) :
  s_quiz (w_session (build_quiz_session amount w).2) = s_quiz (w_session w) ∨
  ∃ prepared now,
    s_quiz (w_session (build_quiz_session amount w).2) =
      Some (QuizState prepared 0 0 [] now).
Proof using Type.
  pose proof (build_quiz_session_run amount w) as Hrun.
  destruct (load_questions (w_questions_file w)) as [bank|e].
  - destruct Hrun as (prepared & g & -> & _). right. by eexists _, _.
  - rewrite Hrun. by left.
Qed.

Lemma fresh_quiz_invariant (prepared : list question) (now : nat) :
  session_invariant (QuizState prepared 0 0 [] now).
Proof using Type. unfold session_invariant. simpl. split_and!; [lia..|done]. Qed.

Lemma start_effect (f : form) (w : world) :
  s_quiz (w_session (start f w).2) = s_quiz (w_session w) ∨
  ∃ prepared now,
    s_quiz (w_session (start f w).2) = Some (QuizState prepared 0 0 [] now).
Proof using Type.
  unfold start. unfold_M. destruct (_ <=? 0); [by left|].
  destruct (int_of_str _) as [x|]; [destruct (x >? _)|];
    (match goal with |- context [build_quiz_session ?a ?w2] =>
       destruct (build_quiz_session_effect a w2) as [E | (prepared & now & E)];
       destruct (build_quiz_session a w2) as [[[]|e] w3]
     end;
     simpl in *; first [left; congruence | right; eauto]).
Qed.

Lemma reset_effect (w : world) :
  s_quiz (w_session (reset w).2) = s_quiz (w_session w) ∨
  s_quiz (w_session (reset w).2) = None ∨
  ∃ prepared now,
    s_quiz (w_session (reset w).2) = Some (QuizState prepared 0 0 [] now).
Proof using Type.
  unfold reset. unfold_M. destruct (_ <=? 0); [by right; left|].
  match goal with |- context [build_quiz_session ?a ?w2] =>
    destruct (build_quiz_session_effect a w2) as [E | (prepared & now & E)];
    destruct (build_quiz_session a w2) as [[[]|e] w3]
  end;
  simpl in *; first [left; congruence | right; right; eauto].
Qed.

(** Every request keeps the invariant of the session it finds. *)
Lemma invariant_step (r : request) (w : world) :
  (∀ qs, s_quiz (w_session w) = Some qs → session_invariant qs) →
  ∀ qs, s_quiz (w_session (after r w)) = Some qs → session_invariant qs.
Proof using Type.
  intros Hinv qs. unfold after. destruct r as [|f| |f| |]; cbn [handle].
  - rewrite index_frame. apply Hinv.
  - destruct (start_effect f w) as [-> | (prepared & now & ->)]; [apply Hinv|].
    intros [= <-]. apply fresh_quiz_invariant.
  - destruct (quiz_frame w) as (_ & -> & _). apply Hinv.
  - by apply answer_invariant.
  - destruct (result_effect w) as [-> | [(_ & m & ->) | (_ & row & ->)]];
      apply Hinv.
  - destruct (reset_effect w) as [-> | [-> | (prepared & now & ->)]];
      [apply Hinv|done|].
    intros [= <-]. apply fresh_quiz_invariant.
Qed.

Lemma invariant_trace (rs : list request) (w : world) :
  (∀ qs, s_quiz (w_session w) = Some qs → session_invariant qs) →
  ∀ qs, s_quiz (w_session (after_all rs w)) = Some qs → session_invariant qs.
Proof using Type.
  revert w. induction rs as [|r rs IH]; intros w Hinv; [done|].
  unfold after_all. cbn [foldl]. fold (after_all rs (after r w)).
  apply IH. by apply invariant_step.
Qed.

Lemma answers_keep_quiz (forms : list form) (w : world) :
  is_Some (s_quiz (w_session w)) →
  is_Some (s_quiz (w_session (after_all (PostAnswer <$> forms) w))).
Proof using Type.
  revert w. induction forms as [|f forms IH]; intros w Hq; [done|].
  rewrite fmap_cons. unfold after_all. cbn [foldl].
  fold (after_all (PostAnswer <$> forms) (after (PostAnswer f) w)).
  apply IH. unfold after. cbn [handle]. by apply answer_keeps_quiz.
Qed.

(** C9. Every session that [build_quiz_session] creates, and every session
    reached from it by any sequence of answers, satisfies the invariant:
    [0 <= position <= number of questions], the answer log has as many
    records as the position, and the score is the number of records whose
    [is_correct] flag is set, hence at most the position. The invariant also
    holds after any sequence of requests of any kind. *)
Theorem reachable_sessions_invariant (amount : Z) (w w1 : world) :
  build_quiz_session amount w = (Ok (), w1) →
  (∀ forms,
     ∃ qs, s_quiz (w_session (after_all (PostAnswer <$> forms) w1)) = Some qs ∧
           0 ≤ idx qs ≤ Z.of_nat (length (questions qs)) ∧
           Z.of_nat (length (answers qs)) = idx qs ∧
           score qs = correct_answers (answers qs) ∧
           0 ≤ score qs ≤ idx qs) ∧
  (∀ rs qs, s_quiz (w_session (after_all rs w1)) = Some qs → session_invariant qs).
Proof using Type.
  intros Hbuild.
  pose proof (build_quiz_session_run amount w) as Hrun. rewrite Hbuild in Hrun.
  destruct (load_questions (w_questions_file w)) as [bank|e]; [|done].
  destruct Hrun as (prepared & g & [= ->] & _).
  set (w1 := with_session _ _).
  assert (∀ qs, s_quiz (w_session w1) = Some qs → session_invariant qs) as Hinv.
  { intros qs [= <-]. apply fresh_quiz_invariant. }
  split.
  - intros forms.
    destruct (answers_keep_quiz forms w1) as [qs Hq]; [by eexists|].
    exists qs. split; [done|].
    destruct (invariant_trace _ w1 Hinv qs Hq) as (Hi & Hl & Hs).
    pose proof (correct_answers_bounds (answers qs)). split_and!; try done; lia.
  - intros rs qs. by apply invariant_trace.
Qed.


(** ** Starting a quiz *)

Lemma question_count_valid (bank : list question) :
  Forall valid_question bank →
  question_count (Some bank) = Z.of_nat (length bank).
Proof using Type. intros H. unfold question_count. by rewrite load_questions_valid. Qed.

(** The session [start] hands to [build_quiz_session]: the advisory message
    when the request exceeds the bank, then the player name and the amount. *)
Lemma start_run (w : world) (f : form) :
  let available := question_count (w_questions_file w) in
  let raw := default "" (f_amount f) in
  let name :=
    let n := str_strip (default "" (f_name f)) in
    if bool_decide (n = "") then "Player" else n in
  let amount := clamp_int raw (Z.min 10 available) 1 available in
  let s1 :=
    match int_of_str raw with
    | Some x =>
        if x >? available then
          add_flash "warning"
            ("Quantidade ajustada para " +:+ pretty available +:+ " (total disponível).")
            (w_session w)
        else w_session w
    | None => w_session w
    end in
  0 < available →
  start f w =
    match build_quiz_session amount
            (with_session (set_amount amount (set_player_name name s1)) w) with
    | (Ok _, w') => (Ok (Redirect "quiz"), w')
    | (Raise e, w') => (Raise e, w')
    end.
Proof using Type.
  intros available raw name amount s1 Hav.
  unfold start. unfold_M. fold available raw.
  destruct (available <=? 0) eqn:E; [lia|]. subst s1.
  destruct (int_of_str raw) as [x|]; [destruct (x >? available)|];
    cbn [fst snd]; destruct w; reflexivity.
Qed.

(** C10, as the code has it. On a bank of [n >= 1] well-formed questions,
    [start] never fails, whatever the requested amount: it redirects to the
    quiz with a session of [amount] questions, [1 <= amount <= n]. An amount
    that is not a number gives the default [min 10 n]; a number below 1 gives
    1; a number above [n] gives [n], with an advisory message; a number in
    range is taken as it is. *)
Theorem start_clamps_amount (w : world) (f : form) (bank : list question) :
  let raw := default "" (f_amount f) in
  let n := Z.of_nat (length bank) in
  w_questions_file w = Some bank →
  Forall valid_question bank →
  (1 ≤ length bank)%nat →
  ∃ w' qs amount,
    start f w = (Ok (Redirect "quiz"), w') ∧
    s_amount (w_session w') = Some amount ∧
    s_quiz (w_session w') = Some qs ∧
    Z.of_nat (length (questions qs)) = amount ∧
    1 ≤ amount ≤ n ∧
    amount = clamp_int raw (Z.min 10 n) 1 n ∧
    (int_of_str raw = None → amount = Z.min 10 n) ∧
    (∀ x, int_of_str raw = Some x → x < 1 → amount = 1) ∧
    (∀ x, int_of_str raw = Some x → n < x →
       amount = n ∧
       ("warning", "Quantidade ajustada para " +:+ pretty n +:+ " (total disponível).")
         ∈ s_flashes (w_session w')) ∧
    (∀ x, int_of_str raw = Some x → 1 ≤ x ≤ n → amount = x).
Proof using Type.
  intros raw n Hfile Hvalid Hn.
  pose proof (start_run w f) as Hrun. cbv zeta in Hrun.
  rewrite Hfile, (question_count_valid bank Hvalid) in Hrun.
  fold n raw in Hrun. specialize (Hrun ltac:(lia)).
  set (amount := clamp_int raw (Z.min 10 n) 1 n) in *.
  assert (1 ≤ amount ≤ n) as Hamount.
  { subst amount. unfold clamp_int. destruct (int_of_str raw); lia. }
  match type of Hrun with context [build_quiz_session amount ?w2] =>
    pose proof (build_quiz_session_run amount w2) as Hb; set (w2' := w2) in *
  end.
  assert (w_questions_file w2' = Some bank) as Hfile' by done.
  rewrite Hfile', (load_questions_valid bank Hvalid) in Hb.
  destruct Hb as (prepared & g & Hb & _ & Hlen). rewrite Hb in Hrun.
  eexists _, _, amount. split; [exact Hrun|].
  split; [reflexivity|]. split; [reflexivity|].
  split; [cbn [questions]; lia|]. split; [done|]. split; [done|].
  subst amount. unfold clamp_int. split_and!.
  - by intros ->.
  - intros x -> ?. lia.
  - intros x Hx ?. rewrite Hx. split; [lia|].
    subst w2'. cbn. rewrite Hx. destruct (x >? n) eqn:Ex; [|lia].
    cbn. apply list_elem_of_In, in_or_app. right. by left.
  - intros x -> ?. lia.
Qed.


(** * Further properties of the engine *)

(** ** [question_count] *)

(** X1. [question_count] is the size of the bank when the bank loads, and 0
    in every other case: it is 0 exactly when the file is absent, or holds a
    malformed entry, or holds no entry at all. It is never negative. *)
Theorem question_count_fail_soft (file : option (list question)) :
  0 ≤ question_count file ∧
  (question_count file = 0 ↔
     file = None ∨
     ∃ data, file = Some data ∧ (¬ Forall valid_question data ∨ data = [])) ∧
  (∀ data, file = Some data → Forall valid_question data →
           question_count file = Z.of_nat (length data)).
Proof using Type.
  unfold question_count. destruct file as [data|]; simpl.
  - pose proof (check_questions_Ok data) as Hok.
    destruct (check_questions data) as [[]|e]; simpl.
    + split; [lia|]. split; [|by intros d [= <-] _]. split.
      * intros H0. right. exists data. split; [done|]. right.
        destruct data; [done|simpl in H0; lia].
      * intros [|(d & [= <-] & [Hbad | ->])]; [done| |done].
        destruct Hbad. by apply Hok.
    + split; [done|]. split; [split|].
      * intros _. right. exists data. split; [done|]. left.
        intros H. apply Hok in H. done.
      * done.
      * intros d [= <-] H. apply Hok in H. done.
  - split; [done|]. split; [|done]. split; [by left|done].
Qed.

(** A positive count means that the bank loads, as a list of well-formed
    questions that is not empty. *)
Lemma question_count_positive (file : option (list question)) :
  0 < question_count file →
  ∃ bank, file = Some bank ∧ load_questions file = Ok bank ∧
          Forall valid_question bank ∧ question_count file = Z.of_nat (length bank).
Proof using Type.
  unfold question_count. intros Hpos.
  destruct file as [data|]; simpl in *; [|lia].
  pose proof (check_questions_Ok data) as Hok.
  destruct (check_questions data) as [[]|e]; simpl in *; [|lia].
  exists data. split_and!; try done. by apply Hok.
Qed.

(** ** Requests without a quiz, and after the last question *)

Lemma quiz_no_quiz (w : world) :
  s_quiz (w_session w) = None →
  quiz w = (Ok (Redirect "index"),
            with_session
              (add_flash "warning" "Nenhum quiz ativo. Inicie um novo." (w_session w)) w).
Proof using Type. intros H. unfold quiz. unfold_M. by rewrite H. Qed.

Lemma answer_no_quiz (f : form) (w : world) :
  s_quiz (w_session w) = None →
  answer f w = (Ok (Redirect "index"),
                with_session
                  (add_flash "warning" "Nenhum quiz ativo. Volte ao início."
                     (w_session w)) w).
Proof using Type. intros H. unfold answer. unfold_M. by rewrite H. Qed.

Lemma result_no_quiz (w : world) :
  s_quiz (w_session w) = None →
  result w = (Ok (Redirect "index"),
              with_session
                (add_flash "warning" "Nenhum quiz ativo. Inicie um novo." (w_session w)) w).
Proof using Type. intros H. unfold result. unfold_M. by rewrite H. Qed.

Lemma quiz_terminal (w : world) (qs : quiz_state) :
  s_quiz (w_session w) = Some qs →
  Z.of_nat (length (questions qs)) ≤ idx qs →
  quiz w = (Ok (Redirect "result"), w).
Proof using Type.
  intros H Hend. unfold quiz. unfold_M. rewrite H.
  destruct (_ <=? idx qs) eqn:E; [done|lia].
Qed.

Lemma answer_terminal (f : form) (w : world) (qs : quiz_state) :
  s_quiz (w_session w) = Some qs →
  Z.of_nat (length (questions qs)) ≤ idx qs →
  answer f w = (Ok (Redirect "result"), w).
Proof using Type.
  intros H Hend. unfold answer. unfold_M. rewrite H.
  destruct (_ <=? idx qs) eqn:E; [done|lia].
Qed.

(** X2. A visitor without a quiz is sent to the index by the quiz view, by
    an answer and by the result view, each time with a warning and nothing
    else; and whatever sequence of such requests they send, they still have
    no quiz, no row is written and the persisted flag is as it was. *)
Theorem no_quiz_no_effect (w : world) :
  s_quiz (w_session w) = None →
  (∃ m, quiz w = (Ok (Redirect "index"),
                  with_session (add_flash "warning" m (w_session w)) w)) ∧
  (∀ f, ∃ m, answer f w = (Ok (Redirect "index"),
                           with_session (add_flash "warning" m (w_session w)) w)) ∧
  (∃ m, result w = (Ok (Redirect "index"),
                    with_session (add_flash "warning" m (w_session w)) w)) ∧
  (∀ rs, Forall (λ r, starts_session r = false) rs →
         s_quiz (w_session (after_all rs w)) = None ∧
         s_score_saved (w_session (after_all rs w)) = s_score_saved (w_session w) ∧
         w_highscores (after_all rs w) = w_highscores w).
Proof using Type.
  intros Hq. split_and!.
  - eexists. by apply quiz_no_quiz.
  - intros f. eexists. by apply answer_no_quiz.
  - eexists. by apply result_no_quiz.
  - intros rs Hrs. revert w Hq. induction Hrs as [|r rs Hr Hrs IH]; intros w Hq.
    + done.
    + unfold after_all. cbn [foldl]. fold (after_all rs (after r w)).
      assert (s_quiz (w_session (after r w)) = None ∧
              s_score_saved (w_session (after r w)) = s_score_saved (w_session w) ∧
              w_highscores (after r w) = w_highscores w) as (Hq' & Hs' & Hh').
      { unfold after. destruct r as [|f| |f| |]; try done; cbn [handle].
        - by rewrite quiz_no_quiz.
        - by rewrite answer_no_quiz.
        - by rewrite result_no_quiz. }
      destruct (IH _ Hq') as (? & ? & ?). split_and!; congruence.
Qed.

(** X3. Once the position has reached the number of questions, the quiz
    view and every answer redirect to the result and change nothing at all:
    after any number of further answers the world is the same. *)
Theorem finished_quiz_is_closed (w : world) (qs : quiz_state) :
  s_quiz (w_session w) = Some qs →
  Z.of_nat (length (questions qs)) ≤ idx qs →
  quiz w = (Ok (Redirect "result"), w) ∧
  (∀ f, answer f w = (Ok (Redirect "result"), w)) ∧
  (∀ forms, after_all (PostAnswer <$> forms) w = w).
Proof using Type.
  intros Hq Hend. split; [by eapply quiz_terminal|].
  split; [intros f; by eapply answer_terminal|].
  intros forms. induction forms as [|f forms IH]; [done|].
  rewrite fmap_cons. unfold after_all. cbn [foldl].
  unfold after at 2. cbn [handle]. rewrite (answer_terminal f w qs Hq Hend).
  exact IH.
Qed.

Lemma question_count_no_bank (file : option (list question)) :
  (∀ bank, load_questions file = Ok bank → bank = []) →
  question_count file = 0.
Proof using Type.
  intros H. unfold question_count.
  destruct (load_questions file) as [bank|]; [|done]. by rewrite (H bank).
Qed.

(** X4. When the bank does not load, or loads empty, [start] and [reset]
    both redirect to the index with an error message and build nothing.
    [start] leaves the session as it is, so a quiz in progress survives;
    [reset] removes the quiz from the session and clears the persisted
    flag. Neither touches the random source or the leaderboard. *)
Theorem no_bank_no_session (w : world) (f : form) :
  (∀ bank, load_questions (w_questions_file w) = Ok bank → bank = []) →
  ∃ m,
    start f w =
      (Ok (Redirect "index"), with_session (add_flash "error" m (w_session w)) w) ∧
    reset w =
      (Ok (Redirect "index"),
       with_session
         (add_flash "error" m (set_score_saved false (set_quiz None (w_session w)))) w).
Proof using Type.
  intros H. apply question_count_no_bank in H. eexists. split.
  - unfold start. unfold_M. rewrite H. reflexivity.
  - unfold reset. unfold_M. rewrite H. reflexivity.
Qed.


(** ** No request raises *)

Lemma quiz_render (w : world) (qs : quiz_state) (q : question) :
  s_quiz (w_session w) = Some qs →
  0 ≤ idx qs < Z.of_nat (length (questions qs)) →
  questions qs !! Z.to_nat (idx qs) = Some q →
  valid_question q →
  ∃ opts qtext qid,
    q !! "options" = Some (VList opts) ∧ length opts = 4%nat ∧
    q !! "question" = Some qtext ∧ q !! "id" = Some qid ∧
    quiz w =
      (Ok (RenderQuiz (player_name (w_session w)) (idx qs)
             (Z.of_nat (length (questions qs))) qtext qid (zip letters opts)), w).
Proof using Type.
  intros Hq Hidx Hl Hv.
  destruct (valid_question_fields q Hv)
    as (qid & qtext & expl & ai & i & Hid & Hqt & _ & _ & _ & _).
  destruct Hv as (_ & (opts & Ho & Hlen) & _).
  exists opts, qtext, qid. split_and!; try done.
  unfold quiz. unfold_M. rewrite Hq.
  destruct (_ <=? idx qs) eqn:E; [lia|].
  rewrite (list_getitem_lookup _ _ _ (proj1 Hidx) Hl).
  unfold getitem. rewrite Ho, Hqt, Hid. reflexivity.
Qed.

Lemma answer_invalid_run (f : form) (w : world) (qs : quiz_state) :
  s_quiz (w_session w) = Some qs →
  idx qs < Z.of_nat (length (questions qs)) →
  valid_choice f = false →
  answer f w =
    (Ok (Redirect "quiz"),
     with_session
       (add_flash "error" "Selecione uma alternativa válida (A, B, C ou D)."
          (w_session w)) w).
Proof using Type.
  intros Hq Hidx Hbad. unfold valid_choice in Hbad.
  unfold answer. unfold_M. rewrite Hq.
  destruct (_ <=? idx qs) eqn:E; [lia|]. by rewrite Hbad.
Qed.

(** A valid choice on a well-formed quiz that is not finished: [answer]
    returns and stores the next state. *)
Lemma answer_valid_run (f : form) (w : world) (qs : quiz_state) :
  s_quiz (w_session w) = Some qs →
  0 ≤ idx qs < Z.of_nat (length (questions qs)) →
  Forall valid_question (questions qs) →
  valid_choice f = true →
  ∃ a,
    answer f w =
      (Ok (Redirect "quiz"),
       with_session
         (set_quiz
            (Some (QuizState (questions qs) (idx qs + 1)
                     (if a_is_correct a then score qs + 1 else score qs)
                     (answers qs ++ [a]) (started_at qs)))
            (w_session w)) w).
Proof using Type.
  intros Hq Hidx Hvalid Hc. unfold valid_choice in Hc.
  apply bool_decide_eq_true in Hc.
  destruct (lookup_lt_is_Some_2 (questions qs) (Z.to_nat (idx qs))) as [q Hl]; [lia|].
  pose proof (Forall_lookup_1 _ _ _ _ Hvalid Hl) as Hv.
  destruct (valid_question_fields q Hv)
    as (qid & qtext & expl & ai & i & Hid & Hqt & Hex & Hai & Hi & Hr).
  destruct (letter_index_correct _ i Hc Hr) as (correct_letter & Hlet & _).
  assert (list_getitem_value letters ai = Ok correct_letter) as Hlet'.
  { unfold list_getitem_value, int_of. rewrite Hi. destruct ai; simplify_eq/=; done. }
  pose proof (answer_run w f qs q qid qtext expl ai correct_letter
                Hq Hidx Hc Hl Hid Hqt Hex Hai Hlet') as Hrun.
  cbv zeta in Hrun. eexists (AnswerRecord _ _ _ _ _ _). exact Hrun.
Qed.

Lemma well_formed_fresh (w : world) (s : flask_session) (prepared : list question)
    (now : nat) :
  Forall valid_question prepared →
  s_quiz s = Some (QuizState prepared 0 0 [] now) →
  well_formed (with_session s w).
Proof using Type.
  intros Hp Hs qs. cbn [w_session with_session]. rewrite Hs. intros [= <-].
  split; [apply fresh_quiz_invariant|done].
Qed.

(** With a positive count the bank loads, and [build_quiz_session] returns
    with a fresh quiz of well-formed questions. *)
Lemma build_quiz_session_available (amount : Z) (w : world) :
  0 < question_count (w_questions_file w) →
  ∃ prepared g,
    build_quiz_session amount w =
      (Ok (),
       with_session
         (set_score_saved false
            (set_quiz (Some (QuizState prepared 0 0 [] (w_clock w))) (w_session w)))
         (with_random g w)) ∧
    Forall valid_question prepared ∧
    Z.of_nat (length prepared) =
      Z.max 1 (Z.min amount (question_count (w_questions_file w))).
Proof using Type.
  intros Hpos.
  destruct (question_count_positive _ Hpos) as (bank & Hfile & Hload & Hvalid & Hcount).
  pose proof (build_quiz_session_run amount w) as Hrun. rewrite Hload in Hrun.
  destruct Hrun as (prepared & g & Hrun & Hp & Hlen).
  exists prepared, g. split_and!; [done..|]. lia.
Qed.

(** What [start] and [reset] return, and the world they leave: an error
    redirect when no question is available, a fresh quiz otherwise. *)
Lemma start_cases (f : form) (w : world) :
  (∃ m, start f w =
          (Ok (Redirect "index"), with_session (add_flash "error" m (w_session w)) w)) ∨
  (∃ s g prepared now,
     start f w = (Ok (Redirect "quiz"), with_session s (with_random g w)) ∧
     s_quiz s = Some (QuizState prepared 0 0 [] now) ∧
     s_score_saved s = Some false ∧
     Forall valid_question prepared).
Proof using Type.
  destruct (Z_le_gt_dec (question_count (w_questions_file w)) 0) as [Hle|Hgt].
  - left. eexists. unfold start. unfold_M.
    destruct (_ <=? 0) eqn:E; [reflexivity|lia].
  - right. pose proof (start_run w f) as Hrun. cbv zeta in Hrun.
    specialize (Hrun ltac:(lia)).
    match type of Hrun with context [build_quiz_session ?a ?w2] =>
      destruct (build_quiz_session_available a w2) as (prepared & g & Hb & Hp & _);
        [simpl; lia|]; rewrite Hb in Hrun
    end.
    eexists _, g, prepared, _. split; [exact Hrun|]. by split_and!.
Qed.

Lemma reset_cases (w : world) :
  (∃ m, reset w =
          (Ok (Redirect "index"),
           with_session
             (add_flash "error" m (set_score_saved false (set_quiz None (w_session w))))
             w)) ∨
  (∃ s g prepared now,
     reset w = (Ok (Redirect "quiz"), with_session s (with_random g w)) ∧
     s_quiz s = Some (QuizState prepared 0 0 [] now) ∧
     s_score_saved s = Some false ∧
     s_player_name s = s_player_name (w_session w) ∧
     s_amount s = s_amount (w_session w) ∧
     Forall valid_question prepared ∧
     Z.of_nat (length prepared) =
       Z.max 1 (Z.min (default (Z.min 10 (question_count (w_questions_file w)))
                         (s_amount (w_session w)))
                  (question_count (w_questions_file w)))).
Proof using Type.
  destruct (Z_le_gt_dec (question_count (w_questions_file w)) 0) as [Hle|Hgt].
  - left. eexists. unfold reset. unfold_M.
    destruct (_ <=? 0) eqn:E; [reflexivity|lia].
  - right. unfold reset. unfold_M.
    destruct (_ <=? 0) eqn:E; [lia|].
    match goal with |- context [build_quiz_session ?a ?w2] =>
      destruct (build_quiz_session_available a w2) as (prepared & g & -> & Hp & Hlen);
        [simpl; lia|]
    end.
    eexists _, g, prepared, _. split; [reflexivity|].
    split_and!; try done. rewrite Hlen. lia.
Qed.

(** X5. No request raises on a well-formed world, and it leaves the world
    well formed: every route returns a response, whatever the question file
    holds, whatever the form carries. A visitor who starts without a quiz is
    in a well-formed world, so no sequence of their requests ever raises. *)
Theorem no_request_raises (w : world) :
  well_formed w →
  (∀ r, ∃ response, (handle r w).1 = Ok response ∧ well_formed (after r w)) ∧
  (∀ rs, well_formed (after_all rs w) ∧
         ∀ r, ∃ response, (handle r (after_all rs w)).1 = Ok response).
Proof using Type.
  assert (∀ w r, well_formed w →
            ∃ response, (handle r w).1 = Ok response ∧ well_formed (after r w)) as Hstep.
  { clear w. intros w r Hwf. unfold after.
    destruct r as [|f| |f| |]; cbn [handle].
    - eexists. split; [reflexivity|]. by rewrite index_frame.
    - destruct (start_cases f w) as [(m & ->) | (s & g & p & now & -> & Hs & _ & Hp)].
      + eexists. split; [reflexivity|]. exact Hwf.
      + eexists. split; [reflexivity|]. by eapply well_formed_fresh.
    - destruct (s_quiz (w_session w)) as [qs|] eqn:Hq.
      + destruct (Hwf qs Hq) as [(Hi & _) Hv].
        destruct (Z_le_gt_dec (Z.of_nat (length (questions qs))) (idx qs)) as [Hend|Hgo].
        * rewrite (quiz_terminal w qs Hq Hend). eauto.
        * destruct (lookup_lt_is_Some_2 (questions qs) (Z.to_nat (idx qs)))
            as [q Hl]; [lia|].
          destruct (quiz_render w qs q Hq ltac:(lia) Hl
                      (Forall_lookup_1 _ _ _ _ Hv Hl))
            as (? & ? & ? & _ & _ & _ & _ & ->). eauto.
      + rewrite (quiz_no_quiz w Hq). eexists. split; [reflexivity|]. exact Hwf.
    - destruct (s_quiz (w_session w)) as [qs|] eqn:Hq.
      + destruct (Hwf qs Hq) as [Hinv Hv]. pose proof Hinv as (Hi & Hl & Hs).
        destruct (Z_le_gt_dec (Z.of_nat (length (questions qs))) (idx qs)) as [Hend|Hgo].
        * rewrite (answer_terminal f w qs Hq Hend). eauto.
        * destruct (valid_choice f) eqn:Hc.
          -- destruct (answer_valid_run f w qs Hq ltac:(lia) Hv Hc) as [a Hrun].
             eexists. split; [by rewrite Hrun|].
             intros qs' Hq'. split.
             ++ apply (answer_invariant f w); [|exact Hq'].
                intros ? ?. simplify_eq. done.
             ++ rewrite Hrun in Hq'. simpl in Hq'. by simplify_eq.
          -- rewrite (answer_invalid_run f w qs Hq ltac:(lia) Hc).
             eexists. split; [reflexivity|]. exact Hwf.
      + rewrite (answer_no_quiz f w Hq). eexists. split; [reflexivity|]. exact Hwf.
    - destruct (s_quiz (w_session w)) as [qs|] eqn:Hq.
      + destruct (Hwf qs Hq) as [(Hi & Hl & Hs) Hv].
        pose proof (correct_answers_bounds (answers qs)) as Hb.
        destruct (percent_and_grade (score qs) (Z.of_nat (length (questions qs))))
          as (percent & rk & Hp & Hr); [lia|].
        unfold result. unfold_M. rewrite Hq, Hp, Hr.
        destruct (negb _); (eexists; split; [reflexivity|]);
          intros qs' Hq'; apply Hwf; simpl in Hq'; congruence.
      + rewrite (result_no_quiz w Hq). eexists. split; [reflexivity|]. exact Hwf.
    - destruct (reset_cases w)
        as [(m & ->) | (s & g & p & now & -> & Hs & _ & _ & _ & Hp & _)].
      + eexists. split; [reflexivity|]. intros qs' Hq'. simpl in Hq'. done.
      + eexists. split; [reflexivity|]. by eapply well_formed_fresh. }
  intros Hwf. split; [intros r; by apply Hstep|].
  assert (∀ rs w, well_formed w → well_formed (after_all rs w)) as Htrace.
  { clear w Hwf. induction rs as [|r rs IH]; intros w Hwf; [done|].
    unfold after_all. cbn [foldl]. fold (after_all rs (after r w)).
    apply IH. by destruct (Hstep w r Hwf) as (? & _ & ?). }
  intros rs. split; [by apply Htrace|].
  intros r. destruct (Hstep (after_all rs w) r (Htrace rs w Hwf)) as (resp & ? & _).
  by exists resp.
Qed.


(** ** Playing a quiz through *)

Lemma count_valid_cons (f : form) (forms : list form) :
  count_valid (f :: forms) = (if valid_choice f then 1 else 0) + count_valid forms.
Proof using Type.
  unfold count_valid. simpl. destruct (valid_choice f); simpl; lia.
Qed.

Lemma count_valid_nonneg (forms : list form) : 0 ≤ count_valid forms.
Proof using Type. unfold count_valid. lia. Qed.

(** A list of answers on a well-formed quiz: the position reached, and what
    the answers leave alone. *)
Lemma answers_run (w : world) (qs : quiz_state) (forms : list form) :
  s_quiz (w_session w) = Some qs →
  0 ≤ idx qs ≤ Z.of_nat (length (questions qs)) →
  Forall valid_question (questions qs) →
  ∃ qs',
    s_quiz (w_session (after_all (PostAnswer <$> forms) w)) = Some qs' ∧
    questions qs' = questions qs ∧
    idx qs' = Z.min (Z.of_nat (length (questions qs))) (idx qs + count_valid forms) ∧
    Z.of_nat (length (answers qs')) =
      Z.of_nat (length (answers qs)) + (idx qs' - idx qs) ∧
    s_score_saved (w_session (after_all (PostAnswer <$> forms) w)) =
      s_score_saved (w_session w) ∧
    s_player_name (w_session (after_all (PostAnswer <$> forms) w)) =
      s_player_name (w_session w) ∧
    w_highscores (after_all (PostAnswer <$> forms) w) = w_highscores w ∧
    w_clock (after_all (PostAnswer <$> forms) w) = w_clock w.
Proof using Type.
  revert w qs. induction forms as [|f forms IH]; intros w qs Hq Hidx Hv.
  - exists qs. simpl. unfold count_valid. simpl. split_and!; try done; lia.
  - rewrite fmap_cons. unfold after_all. cbn [foldl].
    fold (after_all (PostAnswer <$> forms) (after (PostAnswer f) w)).
    rewrite count_valid_cons. pose proof (count_valid_nonneg forms) as Hnn.
    unfold after. cbn [handle].
    destruct (Z_le_gt_dec (Z.of_nat (length (questions qs))) (idx qs)) as [Hend|Hgo].
    + rewrite (answer_terminal f w qs Hq Hend). cbn [snd].
      destruct (IH w qs Hq Hidx Hv) as (qs' & Hq' & Hqq & Hi & Hl & Hfr).
      exists qs'. split_and!; [done|done| |done|apply Hfr..].
      rewrite Hi. destruct (valid_choice f); lia.
    + destruct (valid_choice f) eqn:Hc.
      * destruct (answer_valid_run f w qs Hq ltac:(lia) Hv Hc) as [a ->]. cbn [snd].
        match goal with |- context [after_all _ ?w1] =>
          edestruct (IH w1) as (qs' & Hq' & Hqq & Hi & Hl & Hfr);
            [reflexivity|cbn [idx questions]; lia|exact Hv|]
        end.
        cbn [idx questions answers] in *. rewrite length_app in Hl. simpl in Hl.
        exists qs'. split_and!; [done|done|lia|lia|apply Hfr..].
      * rewrite (answer_invalid_run f w qs Hq ltac:(lia) Hc). cbn [snd].
        match goal with |- context [after_all _ ?w1] =>
          destruct (IH w1 qs) as (qs' & Hq' & Hqq & Hi & Hl & Hfr);
            [exact Hq|exact Hidx|exact Hv|]
        end.
        exists qs'. split_and!; [done|done|lia|done|apply Hfr..].
Qed.

(** X6. Only valid answers move a quiz forward, and only until its end:
    after any list of answer requests on a quiz of [n] well-formed questions
    at position [i], the position is [min n (i + v)], where [v] is the
    number of requests whose choice normalises to A, B, C or D. The questions
    are the same and the log has grown by exactly the number of positions
    gained. *)
Theorem answers_advance (w : world) (qs : quiz_state) (forms : list form) :
  s_quiz (w_session w) = Some qs →
  0 ≤ idx qs ≤ Z.of_nat (length (questions qs)) →
  Forall valid_question (questions qs) →
  ∃ qs',
    s_quiz (w_session (after_all (PostAnswer <$> forms) w)) = Some qs' ∧
    questions qs' = questions qs ∧
    idx qs' = Z.min (Z.of_nat (length (questions qs))) (idx qs + count_valid forms) ∧
    Z.of_nat (length (answers qs')) =
      Z.of_nat (length (answers qs)) + (idx qs' - idx qs).
Proof using Type.
  intros Hq Hidx Hv.
  destruct (answers_run w qs forms Hq Hidx Hv) as (qs' & H1 & H2 & H3 & H4 & _).
  by exists qs'.
Qed.

(** What one request that keeps the session does to a quiz: nothing, or one
    more record at the end of the log. *)
Lemma same_session_quiz_step (r : request) (w : world) (qs : quiz_state) :
  starts_session r = false →
  s_quiz (w_session w) = Some qs →
  s_quiz (w_session (after r w)) = Some qs ∨
  ∃ a, s_quiz (w_session (after r w)) =
         Some (QuizState (questions qs) (idx qs + 1)
                 (if a_is_correct a then score qs + 1 else score qs)
                 (answers qs ++ [a]) (started_at qs)).
Proof using Type.
  intros Hr Hq. unfold after. destruct r as [|f| |f| |]; try done; cbn [handle].
  - left. by rewrite index_frame.
  - left. destruct (quiz_frame w) as (_ & -> & _). done.
  - destruct (answer_effect f w) as [-> | (qs0 & a & Hq0 & _ & ->)]; [by left|].
    right. exists a. rewrite Hq in Hq0. by injection Hq0 as <-.
  - left. destruct (result_effect w) as [-> | [(_ & m & ->) | (_ & row & ->)]]; done.
Qed.

(** X7. Within a session the log only grows and the questions stay: over
    any sequence of requests that does not start a new session, the
    questions and the start time are unchanged, the old log is a prefix of
    the new one, the position has grown by the number of records added, and
    the score has grown by at most that number and never shrunk. *)
Theorem session_log_grows (w : world) (qs : quiz_state) (rs : list request) :
  s_quiz (w_session w) = Some qs →
  Forall (λ r, starts_session r = false) rs →
  ∃ qs' added,
    s_quiz (w_session (after_all rs w)) = Some qs' ∧
    questions qs' = questions qs ∧ started_at qs' = started_at qs ∧
    answers qs' = answers qs ++ added ∧
    idx qs' = idx qs + Z.of_nat (length added) ∧
    score qs ≤ score qs' ≤ score qs + Z.of_nat (length added).
Proof using Type.
  intros Hq Hrs. revert w qs Hq. induction Hrs as [|r rs Hr Hrs IH]; intros w qs Hq.
  - exists qs, []. rewrite app_nil_r. simpl. split_and!; try done; lia.
  - unfold after_all. cbn [foldl]. fold (after_all rs (after r w)).
    destruct (same_session_quiz_step r w qs Hr Hq) as [Hq' | (a & Hq')].
    + by apply IH.
    + destruct (IH _ _ Hq') as (qs' & added & Hfin & Hqq & Hst & Hlog & Hi & Hs).
      cbn [questions started_at answers idx score] in *.
      exists qs', (a :: added). rewrite <- app_assoc in Hlog.
      split_and!; try done; simpl length; destruct (a_is_correct a); lia.
Qed.

(** ** The leaderboard and the question file *)

Lemma handle_frame (r : request) (w : world) :
  w_questions_file (after r w) = w_questions_file w ∧
  (w_highscores (after r w) = w_highscores w ∨
   r = GetResult ∧ ∃ row, w_highscores (after r w) = w_highscores w ++ [row]).
Proof using Type.
  unfold after. destruct r as [|f| |f| |]; cbn [handle].
  - rewrite index_frame. auto.
  - destruct (start_cases f w) as [(m & ->) | (s & g & p & now & -> & _)]; auto.
  - split; [|left; by destruct (quiz_frame w) as (_ & _ & ->)].
    unfold quiz. unfold_M. repeat case_match; simplify_eq/=; done.
  - split; [|left; by destruct (answer_frame f w) as (_ & ->)].
    unfold answer. unfold_M. repeat case_match; simplify_eq/=; done.
  - destruct (result_effect w) as [-> | [(_ & m & ->) | (_ & row & ->)]]; auto.
    split; [done|]. right. split; [done|]. by exists row.
  - destruct (reset_cases w) as [(m & ->) | (s & g & p & now & -> & _)]; auto.
Qed.

(** X8. The leaderboard is append-only and the question file is read-only:
    after any sequence of requests of any kind, the rows that were in the
    table are still there, in the same order and unchanged, in front of the
    rows added; at most one row was added per result view in the sequence;
    and the question file is what it was. *)
Theorem leaderboard_append_only (w : world) (rs : list request) :
  ∃ rows,
    w_highscores (after_all rs w) = w_highscores w ++ rows ∧
    (length rows ≤ length (List.filter is_result rs))%nat ∧
    w_questions_file (after_all rs w) = w_questions_file w.
Proof using Type.
  revert w. induction rs as [|r rs IH]; intros w.
  - exists []. by rewrite app_nil_r.
  - unfold after_all. cbn [foldl]. fold (after_all rs (after r w)).
    destruct (IH (after r w)) as (rows & Hrows & Hlen & Hfile).
    destruct (handle_frame r w) as [Hf Hh]. rewrite Hrows, Hfile, Hf.
    destruct Hh as [-> | (-> & row & ->)].
    + exists rows. split_and!; [done| |done].
      simpl. destruct (is_result r); simpl; lia.
    + exists (row :: rows). rewrite <- app_assoc. split_and!; [done| |done].
      simpl. lia.
Qed.


(** ** The result view, and the quiz view against [answer] *)

(** The response of [result] is decided by the quiz and the player name of
    the session. *)
Lemma result_response (w : world) :
  (result w).1 =
  match s_quiz (w_session w) with
  | None => Ok (Redirect "index")
  | Some qs =>
      percent ← percent_of (score qs) (Z.of_nat (length (questions qs)));
      rk ← grade_rank (score qs) (Z.of_nat (length (questions qs)));
      Ok (RenderResult (player_name (w_session w)) (score qs)
            (Z.of_nat (length (questions qs))) percent rk (answers qs))
  end.
Proof using Type.
  unfold result. unfold_M. destruct (s_quiz (w_session w)) as [qs|]; [|done].
  destruct (percent_of _ _) as [percent|]; [|done].
  destruct (grade_rank _ _) as [rk|]; [|done]. simpl.
  destruct (negb _); done.
Qed.

(** X9. Viewing the result again shows the same result: the response of a
    second result view is the response of the first, whether it is the
    rendered result, the redirect of a visitor without quiz, or the error of
    a grade that cannot be computed. *)
Theorem result_refresh (w : world) :
  (result (result w).2).1 = (result w).1.
Proof using Type.
  rewrite !result_response.
  destruct (result_effect w) as [-> | [(Hq & m & ->) | (_ & row & ->)]]; done.
Qed.

(** X10. On a well-formed quiz that is not finished, the quiz view returns
    the current question with its four options labelled A, B, C, D in their
    stored order, and changes nothing. The label it puts on the correct
    option is the letter that [answer] then records as correct: a valid
    answer is marked correct exactly when it is that label. *)
Theorem quiz_shows_current_question (w : world) (qs : quiz_state) :
  s_quiz (w_session w) = Some qs →
  0 ≤ idx qs < Z.of_nat (length (questions qs)) →
  Forall valid_question (questions qs) →
  ∃ q opts qtext qid i correct_letter correct_option,
    questions qs !! Z.to_nat (idx qs) = Some q ∧
    q !! "options" = Some (VList opts) ∧
    int_value (dict_get q "answer_index") = Some i ∧
    quiz w =
      (Ok (RenderQuiz (player_name (w_session w)) (idx qs)
             (Z.of_nat (length (questions qs))) qtext qid (zip letters opts)), w) ∧
    (zip letters opts).*1 = letters ∧ (zip letters opts).*2 = opts ∧
    opts !! Z.to_nat i = Some correct_option ∧
    zip letters opts !! Z.to_nat i = Some (correct_letter, correct_option) ∧
    (∀ f, valid_choice f = true →
       ∃ a qs',
         s_quiz (w_session (answer f w).2) = Some qs' ∧
         answers qs' = answers qs ++ [a] ∧
         a_correct a = correct_letter ∧
         (a_is_correct a = true ↔
            str_upper (str_strip (default "" (f_choice f))) = correct_letter)).
Proof using Type.
  intros Hq Hidx Hvalid.
  destruct (lookup_lt_is_Some_2 (questions qs) (Z.to_nat (idx qs))) as [q Hl]; [lia|].
  pose proof (Forall_lookup_1 _ _ _ _ Hvalid Hl) as Hv.
  destruct (quiz_render w qs q Hq Hidx Hl Hv)
    as (opts & qtext & qid & Ho & Hlen & Hqt & Hid & Hrun).
  destruct (valid_question_fields q Hv)
    as (qid' & qtext' & expl & ai & i & Hid' & Hqt' & Hex & Hai & Hi & Hr).
  rewrite Hid in Hid'. injection Hid' as <-.
  rewrite Hqt in Hqt'. injection Hqt' as <-.
  destruct (lookup_lt_is_Some_2 opts (Z.to_nat i)) as [correct_option Hopt]; [lia|].
  destruct (lookup_lt_is_Some_2 letters (Z.to_nat i)) as [correct_letter Hlet];
    [simpl; lia|].
  assert (list_getitem_value letters ai = Ok correct_letter) as Hlet'.
  { unfold list_getitem_value, int_of. rewrite Hi.
    replace (isinstance_int ai) with true by (destruct ai; simplify_eq/=; done).
    change (list_getitem letters i = Ok correct_letter).
    apply list_getitem_lookup; [lia|done]. }
  exists q, opts, qtext, qid, i, correct_letter, correct_option.
  split_and!; try done.
  - unfold dict_get. by rewrite Hai.
  - apply fst_zip. simpl. lia.
  - apply snd_zip. simpl. lia.
  - apply lookup_zip_with_Some. eauto.
  - intros f Hc. unfold valid_choice in Hc. apply bool_decide_eq_true in Hc.
    pose proof (answer_run w f qs q qid qtext expl ai correct_letter
                  Hq Hidx Hc Hl Hid Hqt Hex Hai Hlet') as Hans.
    cbv zeta in Hans. rewrite Hans. eexists _, _. split; [reflexivity|].
    cbn [answers a_correct a_is_correct]. split_and!; [done|done|].
    apply bool_decide_eq_true.
Qed.

(** ** Starting over *)

(** X11. When questions are available, [reset] starts a new quiz at once:
    it keeps the player name and the amount of the session, builds a fresh
    quiz of [max 1 (min amount n)] questions (the amount defaults to
    [min 10 n] when the session has none), clears the persisted flag, so
    that the new session can write its own row, flashes a success message and
    leaves the leaderboard as it is. *)
Theorem reset_starts_over (w : world) :
  0 < question_count (w_questions_file w) →
  ∃ prepared g,
    reset w =
      (Ok (Redirect "quiz"),
       with_session
         (add_flash "success" "Novo quiz iniciado."
            (set_score_saved false
               (set_quiz (Some (QuizState prepared 0 0 [] (w_clock w))) (w_session w))))
         (with_random g w)) ∧
    Forall valid_question prepared ∧
    Z.of_nat (length prepared) =
      Z.max 1 (Z.min (default (Z.min 10 (question_count (w_questions_file w)))
                        (s_amount (w_session w)))
                 (question_count (w_questions_file w))).
Proof using Type.
  intros Hpos. unfold reset. unfold_M.
  destruct (_ <=? 0) eqn:E; [lia|].
  match goal with |- context [build_quiz_session ?a ?w2] =>
    destruct (build_quiz_session_available a w2) as (prepared & g & -> & Hp & Hlen);
      [simpl; lia|]
  end.
  exists prepared, g. split; [reflexivity|]. split; [done|]. rewrite Hlen. lia.
Qed.


(** ** Shuffling: what it needs and what it keeps *)

(** X12. [shuffle_question] relies on the checks of the loader. A question
    without the key ["options"], or with it but without ["answer_index"],
    raises [KeyError] for that key and draws nothing from the random source;
    a list of options whose index is outside [0, len) is shuffled and then
    raises [StopIteration], since no position holds the old index. *)
Theorem shuffle_question_errors (q : question) (w : world) :
  (q !! "options" = None →
   shuffle_question q w = (Raise (KeyError "options"), w)) ∧
  (is_Some (q !! "options") → q !! "answer_index" = None →
   shuffle_question q w = (Raise (KeyError "answer_index"), w)) ∧
  (∀ opts ai i,
     q !! "options" = Some (VList opts) → q !! "answer_index" = Some ai →
     int_value ai = Some i → ¬ (0 ≤ i < Z.of_nat (length opts)) →
     ∃ g, shuffle_question q w = (Raise StopIteration, with_random g w)).
Proof using Type.
  unfold shuffle_question. split_and!.
  - intros Ho. rewrite bind_run. unfold lift, getitem. by rewrite Ho.
  - intros [o Ho] Ha. rewrite bind_run. unfold lift, getitem. rewrite Ho.
    rewrite bind_run. by rewrite Ha.
  - intros opts ai i Ho Ha Hi Hout. rewrite bind_run. unfold lift, getitem.
    rewrite Ho, bind_run, Ha, bind_run. cbn [py_iter]. rewrite bind_run.
    destruct (shuffle_spec (enumerate opts) w) as (indexed & g & -> & Hperm).
    exists g. rewrite bind_run. unfold next_index.
    destruct (list_find _ indexed) as [[jn [k x]]|] eqn:Hfind; [|done].
    exfalso. apply list_find_Some in Hfind as (Hjn & Hk & _).
    simpl in Hk. rewrite (int_eq_value_int _ _ _ Hi) in Hk.
    apply Is_true_true, Z.eqb_eq in Hk. subst k.
    apply list_elem_of_lookup_2 in Hjn. rewrite Hperm in Hjn.
    apply enumerate_elem in Hjn as [Hnn Hlook].
    apply lookup_lt_Some in Hlook. lia.
Qed.

(** A well-formed question and its shuffled copy. *)
Lemma shuffle_question_copy (q : question) (w : world) :
  valid_question q →
  ∃ q' g, shuffle_question q w = (Ok q', with_random g w) ∧ shuffled_copy q q'.
Proof using Type.
  intros (Hreq & (opts & Ho & Hlen) & ai & Ha & i & Hi & Hr).
  destruct (shuffle_question_run q w opts ai i Ho Ha Hi ltac:(lia))
    as (indexed & jn & x & g & Hperm & Hjn & _ & Hrun).
  eexists _, g. split; [exact Hrun|]. split.
  - intros key Hk1 Hk2. by rewrite !lookup_insert_ne.
  - exists opts, indexed.*2, ai, i, (Z.of_nat jn).
    rewrite Nat2Z.id, length_fmap.
    split_and!; try done.
    + by rewrite lookup_insert_ne, lookup_insert_eq.
    + rewrite Hperm. unfold enumerate. rewrite fmap_imap.
      rewrite (imap_ext _ (const id)) by done. by rewrite imap_const, list_fmap_id.
    + by rewrite lookup_insert_eq.
    + lia.
    + apply lookup_lt_Some in Hjn. lia.
    + rewrite list_lookup_fmap, Hjn. simpl.
      apply list_elem_of_lookup_2 in Hjn. rewrite Hperm in Hjn.
      apply enumerate_elem in Hjn as [_ ->]. done.
Qed.

Lemma mapM_shuffle_question_copy (l : list question) (w : world) :
  Forall valid_question l →
  ∃ l' g, mapM shuffle_question l w = (Ok l', with_random g w) ∧
          Forall2 shuffled_copy l l'.
Proof using Type.
  intros Hl. revert w. induction Hl as [|q l Hq Hl IH]; intros w.
  - exists [], (w_random w). split; [|constructor]. by destruct w.
  - destruct (shuffle_question_copy q w Hq) as (q' & g & Hrun & Hq').
    destruct (IH (with_random g w)) as (l' & g' & Hrun' & Hl').
    exists (q' :: l'), g'. split; [|by constructor].
    rewrite mapM_cons_M, bind_run, Hrun, bind_run, Hrun'. reflexivity.
Qed.

(** X13. The questions of a new session are drawn from the bank without
    replacement: [build_quiz_session] on a bank that loads stores the
    shuffled copies of a list [selected] of [min n (max 1 (min amount n))]
    bank entries that is contained in the bank as a multiset, so no entry is
    used more often than the bank holds it. Each copy has the id, the text,
    the explanation and every other key of its original; only its options
    are permuted, and its index points at the option that was correct. *)
Theorem build_quiz_session_selects (amount : Z) (w : world) (bank : list question) :
  w_questions_file w = Some bank →
  Forall valid_question bank →
  ∃ selected prepared g,
    build_quiz_session amount w =
      (Ok (),
       with_session
         (set_score_saved false
            (set_quiz (Some (QuizState prepared 0 0 [] (w_clock w))) (w_session w)))
         (with_random g w)) ∧
    selected ⊆+ bank ∧
    length selected =
      (Z.to_nat (Z.max 1 (Z.min amount (Z.of_nat (length bank)))) `min` length bank)%nat ∧
    Forall2 shuffled_copy selected prepared.
Proof using Type.
  intros Hfile Hvalid.
  unfold build_quiz_session, read_questions. rewrite bind_run.
  rewrite Hfile, (load_questions_valid bank Hvalid). rewrite bind_run.
  destruct (shuffle_spec bank w) as (shuffled & g & -> & Hperm).
  set (n := Z.max 1 (Z.min amount (Z.of_nat (length shuffled)))).
  rewrite slice_to_take by lia.
  assert (Forall valid_question (take (Z.to_nat n) shuffled)) as Hsel.
  { apply Forall_take. by rewrite Hperm. }
  destruct (mapM_shuffle_question_copy _ (with_random g w) Hsel)
    as (prepared & g' & Hrun & Hcopy).
  rewrite bind_run, Hrun.
  exists (take (Z.to_nat n) shuffled), prepared, g'.
  split; [reflexivity|]. split_and!; [|by rewrite length_take; subst n; rewrite Hperm|done].
  rewrite <- Hperm. apply submseteq_take.
Qed.


(** ** Full marks and no marks *)

(** The quotient of a positive integer by itself is exactly [1.0]. *)
Lemma SFdiv_self (p : positive) :
  SpecFloat.SFdiv F64.prec F64.emax
    (SpecFloat.S754_finite false p 0) (SpecFloat.S754_finite false p 0) = F64.one.
Proof using Type.
  unfold SpecFloat.SFdiv, SpecFloat.SFdiv_core_binary. cbn [SpecFloat.Zdigits2].
  set (d := Zpos (SpecFloat.digits2_pos p)).
  replace (d + 0 - (d + 0)) with 0 by lia.
  change (Z.min (SpecFloat.fexp F64.prec F64.emax 0) (0 - 0)) with (-53).
  change (0 - 0 - -53) with 53.
  rewrite Z.shiftl_mul_pow2 by lia.
  change IntDef.Z.div_eucl with Z.div_eucl.
  assert (Zpos p * 2 ^ 53 / Zpos p = 2 ^ 53) as Hq.
  { rewrite Z.mul_comm. apply Z.div_mul. lia. }
  assert ((Zpos p * 2 ^ 53) `mod` Zpos p = 0) as Hr.
  { rewrite Z.mul_comm. apply Z.mod_mul. lia. }
  unfold Z.div in Hq. unfold Z.modulo in Hr.
  destruct (Z.div_eucl (Zpos p * 2 ^ 53) (Zpos p)) as [q r]. subst q r.
  replace (SpecFloat.new_location (Zpos p) 0) with SpecFloat.loc_Exact.
  - vm_compute. reflexivity.
  - unfold SpecFloat.new_location. by destruct (Z.even (Zpos p)).
Qed.

(** X14. Full marks are always graded "Excelente" and shown as 100 percent,
    and no marks are always graded "Iniciante" and shown as 0 percent: for
    every total [n >= 1], in binary64 arithmetic, [n / n] is exactly [1.0]
    and [n / n * 100.0] exactly [100.0], whatever the size of [n]. *)
Theorem full_marks_and_no_marks (n : Z) :
  0 < n →
  grade_rank n n = Ok rank_excellent ∧
  percent_of n n = Ok F64.hundred ∧
  grade_rank 0 n = Ok rank_beginner ∧
  percent_of 0 n = Ok F64.zero.
Proof using Type.
  intros Hn. unfold grade_rank, percent_of, F64.true_div.
  destruct (n <=? 0) eqn:E1; [lia|]. destruct (n =? 0) eqn:E2; [lia|].
  destruct n as [|p|p]; [lia| |lia]. cbn [F64.of_int].
  rewrite SFdiv_self. split_and!; vm_compute; reflexivity.
Qed.


(** ** A whole quiz, from the start to the leaderboard *)

(** [start] when questions are available: the session it stores. *)
Lemma start_available (w : world) (f : form) :
  let n := question_count (w_questions_file w) in
  let amount := clamp_int (default "" (f_amount f)) (Z.min 10 n) 1 n in
  let name :=
    let s := str_strip (default "" (f_name f)) in
    if bool_decide (s = "") then "Player" else s in
  0 < n →
  ∃ prepared g s0,
    start f w =
      (Ok (Redirect "quiz"),
       with_session
         (set_score_saved false
            (set_quiz (Some (QuizState prepared 0 0 [] (w_clock w)))
               (set_amount amount (set_player_name name s0))))
         (with_random g w)) ∧
    Forall valid_question prepared ∧
    Z.of_nat (length prepared) = amount.
Proof using Type.
  intros n amount name Hn.
  pose proof (start_run w f) as Hrun. cbv zeta in Hrun.
  fold n in Hrun. fold amount in Hrun. fold name in Hrun.
  specialize (Hrun Hn).
  match type of Hrun with context [build_quiz_session amount ?w2] =>
    destruct (build_quiz_session_available amount w2) as (prepared & g & Hb & Hp & Hlen);
      [exact Hn|]; rewrite Hb in Hrun
  end.
  eexists prepared, g, _. split; [exact Hrun|]. split; [done|].
  rewrite Hlen. cbn [w_questions_file with_session]. fold n.
  subst amount. unfold clamp_int. destruct (int_of_str _); lia.
Qed.

Lemma after_all_app (rs1 rs2 : list request) (w : world) :
  after_all (rs1 ++ rs2) w = after_all rs2 (after_all rs1 w).
Proof using Type. unfold after_all. apply foldl_app. Qed.

(** X15. A quiz played to its end is recorded once, as it was played. When
    questions are available, a start request followed by answers of which at
    least [amount] are valid, followed by the result view, leaves a finished
    session of [amount] questions and exactly one new row at the end of the
    leaderboard: it carries the stripped name of the form (["Player"] when
    that is empty), the total [amount], the number of correct records of the
    log as score, and the percentage of that score; and the persisted flag
    is set. *)
Theorem complete_quiz_is_recorded (w : world) (f : form) (forms : list form) :
  let n := question_count (w_questions_file w) in
  let amount := clamp_int (default "" (f_amount f)) (Z.min 10 n) 1 n in
  let name :=
    let s := str_strip (default "" (f_name f)) in
    if bool_decide (s = "") then "Player" else s in
  let finished :=
    after_all (PostStart f :: (PostAnswer <$> forms) ++ [GetResult]) w in
  0 < n →
  amount ≤ count_valid forms →
  ∃ qs row,
    s_quiz (w_session finished) = Some qs ∧
    idx qs = amount ∧
    Z.of_nat (length (questions qs)) = amount ∧
    Z.of_nat (length (answers qs)) = amount ∧
    w_highscores finished = w_highscores w ++ [row] ∧
    h_name row = name ∧ h_total row = amount ∧
    h_score row = correct_answers (answers qs) ∧
    0 ≤ h_score row ≤ amount ∧
    percent_of (h_score row) amount = Ok (h_percent row) ∧
    s_score_saved (w_session finished) = Some true.
Proof using Type.
  intros n amount name finished Hn Hcount. subst finished.
  change (PostStart f :: (PostAnswer <$> forms) ++ [GetResult])
    with ([PostStart f] ++ (PostAnswer <$> forms) ++ [GetResult]).
  rewrite !after_all_app.
  destruct (start_available w f Hn) as (prepared & g & s0 & Hstart & Hp & Hlen).
  fold n in Hstart, Hlen. fold amount in Hstart, Hlen. fold name in Hstart.
  set (w1 := after_all [PostStart f] w).
  assert (w1 = (start f w).2) as Hw1 by reflexivity.
  rewrite Hstart in Hw1. cbn [snd] in Hw1.
  set (qs0 := QuizState prepared 0 0 [] (w_clock w)) in *.
  assert (s_quiz (w_session w1) = Some qs0) as Hq0 by (by rewrite Hw1).
  destruct (answers_run w1 qs0 forms Hq0)
    as (qs & Hq & Hqq & Hidx & Hlog & Hflag & Hname & Hrows & Hclock);
    [cbn [idx questions qs0]; lia|exact Hp|].
  cbn [idx questions answers qs0 length] in Hqq, Hidx, Hlog.
  set (w2 := after_all (PostAnswer <$> forms) w1) in *.
  assert (session_invariant qs) as (Hi & Hl & Hs).
  { apply (invariant_trace (PostAnswer <$> forms) w1); [|exact Hq].
    intros qs1 Hq1. replace qs1 with qs0 by congruence.
    apply fresh_quiz_invariant. }
  pose proof (correct_answers_bounds (answers qs)) as Hb.
  assert (idx qs = amount) as Hidx' by lia.
  destruct (result_writes w2 qs Hq) as (percent & rk & Hpc & _ & Hres).
  { rewrite Hflag, Hw1. done. }
  { rewrite Hqq. lia. }
  change (after_all [GetResult] w2) with (result w2).2.
  rewrite Hres. cbn [snd].
  eexists qs, _. split; [exact Hq|].
  cbn [w_highscores with_session with_highscores w_session set_score_saved
       s_score_saved h_name h_total h_score h_percent h_created_at].
  rewrite Hrows, Hclock, Hqq. unfold player_name. rewrite Hname, Hw1.
  rewrite Hqq, Hlen in Hpc.
  cbn. split_and!; try done; simpl; try done; lia.
Qed.


(** ** Grading a shuffled question *)

Lemma letters_lookup_inj (k j : nat) (letter : string) :
  letters !! k = Some letter → letters !! j = Some letter → k = j.
Proof using Type.
  intros Hk Hj. eapply NoDup_lookup; [|exact Hk|exact Hj].
  clear. unfold letters. repeat (apply NoDup_cons; split; [set_solver|]).
  apply NoDup_nil_2.
Qed.

(** X16. Shuffling the options does not change which option is the right
    one. Let [q'] be a shuffled copy of a well-formed question [q] and the
    current question of a quiz. A player who chooses the letter shown beside
    an option of [q'] gets one more record in the log; when the record is
    marked correct, the option chosen is the option that the answer index of
    [q] designates, and, when the options of [q] are pairwise distinct,
    choosing that option is always marked correct. *)
Theorem shuffled_question_graded_by_option
    (q q' : question) (w0 w0' w : world) (qs : quiz_state) (f : form)
    (k : nat) (opts : list value) (i : Z) :
  valid_question q →
  q !! "options" = Some (VList opts) →
  int_value (dict_get q "answer_index") = Some i →
  shuffle_question q w0 = (Ok q', w0') →
  s_quiz (w_session w) = Some qs →
  0 ≤ idx qs →
  questions qs !! Z.to_nat (idx qs) = Some q' →
  letters !! k = Some (str_upper (str_strip (default "" (f_choice f)))) →
  ∃ opts' shown a qs',
    q' !! "options" = Some (VList opts') ∧
    opts' !! k = Some shown ∧
    s_quiz (w_session (after (PostAnswer f) w)) = Some qs' ∧
    answers qs' = answers qs ++ [a] ∧
    (a_is_correct a = true → opts !! Z.to_nat i = Some shown) ∧
    (NoDup opts → opts !! Z.to_nat i = Some shown → a_is_correct a = true).
Proof using Type.
  intros Hv Ho Hi Hsh Hq Hidx Hl Hk.
  destruct (shuffle_question_copy q w0 Hv) as (q1 & g & Hrun & Hfr & Hcopy).
  rewrite Hsh in Hrun. injection Hrun as <- _.
  destruct Hcopy as (opts0 & opts' & ai & i0 & j & Ho0 & Ho' & Hperm & Ha & Hi0
                       & Ha' & Hj & Hsame).
  rewrite Ho in Ho0. injection Ho0 as <-.
  unfold dict_get in Hi. rewrite Ha in Hi. simpl in Hi.
  rewrite Hi in Hi0. injection Hi0 as <-.
  destruct Hv as (Hreq & (opts1 & Ho1 & Hlen) & _).
  rewrite Ho in Ho1. injection Ho1 as <-.
  assert (length opts' = 4%nat) as Hlen' by (by rewrite Hperm).
  pose proof (lookup_lt_Some _ _ _ Hk) as Hk4. cbn [letters length] in Hk4.
  destruct (lookup_lt_is_Some_2 opts' k) as [shown Hshown]; [lia|].
  destruct (lookup_lt_is_Some_2 letters (Z.to_nat j)) as [correct_letter Hcl];
    [cbn [letters length]; lia|].
  destruct (required_fields_lookup q "id" Hreq) as [qid Hid]; [by vm_compute|].
  destruct (required_fields_lookup q "question" Hreq) as [qtext Hqt]; [by vm_compute|].
  destruct (required_fields_lookup q "explanation" Hreq) as [expl Hex]; [by vm_compute|].
  rewrite <- Hfr in Hid, Hqt, Hex by done.
  pose proof (lookup_lt_Some _ _ _ Hl) as Hlt.
  assert (list_getitem_value letters (VInt j) = Ok correct_letter) as Hlet.
  { unfold list_getitem_value, int_of. simpl isinstance_int. simpl default.
    apply list_getitem_lookup; [lia|done]. }
  pose proof (answer_run w f qs q' qid qtext expl (VInt j) correct_letter Hq
                ltac:(lia)) as Hans.
  cbv zeta in Hans.
  specialize (Hans ltac:(apply list_elem_of_lookup_2 in Hk; clear -Hk;
                          unfold letters, letter_set in *; set_solver)
                Hl Hid Hqt Hex Ha' Hlet).
  unfold after. cbn [handle]. rewrite Hans. cbn [snd].
  eexists opts', shown, _, _. split; [done|]. split; [done|].
  split; [reflexivity|]. split; [reflexivity|].
  cbn [a_is_correct answers]. split.
  - intros Hc. apply bool_decide_eq_true in Hc. rewrite <- Hc in Hcl.
    rewrite (letters_lookup_inj _ _ _ Hk Hcl) in Hshown. congruence.
  - intros Hnd Hshown'. apply bool_decide_eq_true.
    assert (k = Z.to_nat j) as ->.
    { eapply NoDup_lookup; [|exact Hshown|congruence]. by rewrite Hperm. }
    congruence.
Qed.


(** ** The advisory message of [start] *)

(** X17. [start] tells the player about an adjusted amount only when the
    amount was too large. When questions are available, the messages flashed
    after [start] are those flashed before, followed by the warning that the
    amount was adjusted to the number [n] of available questions exactly when
    the amount is a number above [n]. An amount below 1 is raised to 1, and
    an amount that is no number is replaced by the default, without any
    message. *)
Theorem start_warns_only_above (w : world) (f : form) :
  let n := question_count (w_questions_file w) in
  let raw := default "" (f_amount f) in
  let warning :=
    ("warning", "Quantidade ajustada para " +:+ pretty n +:+ " (total disponível).") in
  0 < n →
  s_flashes (w_session (start f w).2) =
    s_flashes (w_session w) ++
      match int_of_str raw with
      | Some x => if x >? n then [warning] else []
      | None => []
      end ∧
  (∀ x, int_of_str raw = Some x → x < 1 →
     s_amount (w_session (start f w).2) = Some 1 ∧
     s_flashes (w_session (start f w).2) = s_flashes (w_session w)) ∧
  (int_of_str raw = None →
     s_amount (w_session (start f w).2) = Some (Z.min 10 n) ∧
     s_flashes (w_session (start f w).2) = s_flashes (w_session w)).
Proof using Type.
  intros n raw warning Hn.
  pose proof (start_run w f) as Hrun. cbv zeta in Hrun.
  fold n in Hrun. fold raw in Hrun. specialize (Hrun Hn).
  match type of Hrun with context [build_quiz_session ?a ?w2] =>
    destruct (build_quiz_session_available a w2) as (prepared & g & Hb & _);
      [exact Hn|]; rewrite Hb in Hrun
  end.
  rewrite Hrun. cbn [snd w_session with_session set_score_saved set_quiz
                     set_amount set_player_name s_flashes s_amount].
  assert (∀ s, s_flashes (add_flash "warning" warning.2 s) = s_flashes s ++ [warning])
    as Hflash by reflexivity.
  split_and!.
  - destruct (int_of_str raw) as [x|]; [destruct (x >? n)|];
      by rewrite ?Hflash, ?app_nil_r.
  - intros x Hx Hlow. rewrite Hx. unfold clamp_int. rewrite Hx.
    destruct (x >? n) eqn:E; [lia|]. split; [f_equal; lia|done].
  - intros Hx. rewrite Hx. unfold clamp_int. rewrite Hx. done.
Qed.

End Engine.

(** * The engine on concrete requests

    The theorems above, applied to the sample bank with the ASCII builtins. *)

Lemma sample_bank_valid : Forall valid_question Sample.bank.
Proof. apply check_questions_Ok. vm_compute. reflexivity. Qed.

Lemma started_quiz_valid : Forall valid_question (questions Sample.quiz_at_start).
Proof. apply check_questions_Ok. vm_compute. reflexivity. Qed.

(** The third sample question answered with [" c "]: the letter is
    normalised to C, which is its correct option. *)
Lemma answer_valid_choice_witness :
  AsciiStr.upper (AsciiStr.strip " c ") ∈ letter_set ∧
  ∃ qs',
    s_quiz (w_session
              (answer AsciiStr.strip AsciiStr.upper (Sample.choose " c ")
                 (with_session
                    (set_quiz (Some (QuizState (take 3 Sample.bank) 2 1 [] 100))
                       Sample.started_session) Sample.started_world)).2) = Some qs' ∧
    idx qs' = 3 ∧ score qs' = 2 ∧ length (answers qs') = 1%nat.
Proof.
  assert (AsciiStr.upper (AsciiStr.strip " c ") ∈ letter_set) as Hc.
  { vm_compute. set_solver. }
  split; [exact Hc|].
  destruct (answer_valid_choice AsciiStr.strip AsciiStr.upper
              (with_session
                 (set_quiz (Some (QuizState (take 3 Sample.bank) 2 1 [] 100))
                    Sample.started_session) Sample.started_world)
              (Sample.choose " c ")
              (QuizState (take 3 Sample.bank) 2 1 [] 100))
    as (q & i & record & qs' & Hq & Hi & Hrun & Hidx & Hlog & Hyes & _);
    [reflexivity | simpl; lia | exact started_quiz_valid | exact Hc |].
  exists qs'. rewrite Hrun. split; [reflexivity|]. split; [exact Hidx|].
  split; [|by rewrite Hlog].
  apply Hyes. vm_compute in Hq. injection Hq as <-. vm_compute in Hi.
  injection Hi as <-. reflexivity.
Defined.

(** A choice that is not a letter: the quiz stays where it is. *)
Lemma answer_invalid_choice_witness :
  (AsciiStr.upper (AsciiStr.strip "e") ∉ letter_set) ∧
  s_quiz (w_session
            (answer AsciiStr.strip AsciiStr.upper (Sample.choose "e")
               Sample.started_world).2) = Some Sample.quiz_at_start.
Proof.
  assert (AsciiStr.upper (AsciiStr.strip "e") ∉ letter_set) as Hc.
  { vm_compute. set_solver. }
  split; [exact Hc|].
  destruct (answer_invalid_choice AsciiStr.strip AsciiStr.upper
              Sample.started_world (Sample.choose "e") Sample.quiz_at_start)
    as (w' & Hrun & _ & Hq & _);
    [reflexivity | simpl; lia | exact Hc |].
  rewrite Hrun. exact Hq.
Defined.

(** The second sample question shuffled: the text at the new index is the
    text that was at index 1. *)
Lemma shuffle_question_permutes_witness :
  ∃ q' opts' j,
    (shuffle_question (Sample.make_question 2 (VInt 1) Sample.four)
       Sample.fresh_world).1 = Ok q' ∧
    q' !! "options" = Some (VList opts') ∧ q' !! "answer_index" = Some (VInt j) ∧
    opts' ≡ₚ Sample.four ∧ opts' !! Z.to_nat j = Some (VStr "east").
Proof.
  destruct (shuffle_question_permutes
              (Sample.make_question 2 (VInt 1) Sample.four) Sample.fresh_world
              Sample.four (VInt 1) 1)
    as (opts' & j & σ & g & Hrun & Hperm & _ & _ & _ & _ & _ & _ & Hj);
    [vm_compute; reflexivity | reflexivity | vm_compute; reflexivity
    | reflexivity | lia |].
  eexists _, opts', j. rewrite Hrun. split; [reflexivity|].
  split; [|split; [by rewrite lookup_insert_eq|split; [exact Hperm|exact Hj]]].
  rewrite lookup_insert_ne by done. by rewrite lookup_insert_eq.
Defined.

(** Five questions in the bank, three requested, and then thirty. *)
Lemma build_quiz_session_clamps_witness :
  (∃ w' qs, build_quiz_session 3 Sample.fresh_world = (Ok (), w') ∧
            s_quiz (w_session w') = Some qs ∧ length (questions qs) = 3%nat ∧
            s_score_saved (w_session w') = Some false) ∧
  (∃ w' qs, build_quiz_session 30 Sample.fresh_world = (Ok (), w') ∧
            s_quiz (w_session w') = Some qs ∧ length (questions qs) = 5%nat).
Proof.
  split.
  - destruct (build_quiz_session_clamps 3 Sample.fresh_world Sample.bank)
      as (w' & qs & Hrun & Hq & Hlen & _ & _ & _ & Hflag & _);
      [reflexivity | apply check_questions_Ok; vm_compute; reflexivity
      | simpl; lia |].
    exists w', qs. split_and!; [done|done| |done]. simpl in Hlen. lia.
  - destruct (build_quiz_session_clamps 30 Sample.fresh_world Sample.bank)
      as (w' & qs & Hrun & Hq & Hlen & _);
      [reflexivity | apply check_questions_Ok; vm_compute; reflexivity
      | simpl; lia |].
    exists w', qs. split_and!; [done|done|]. simpl in Hlen. lia.
Defined.

(** A session of two questions after three answer requests, one of them
    invalid: the invariant holds. *)
Lemma reachable_sessions_invariant_witness :
  ∃ qs,
    s_quiz (w_session
              (after_all AsciiStr.strip AsciiStr.upper AsciiStr.int
                 (PostAnswer <$> [Sample.choose "a"; Sample.choose "?"; Sample.choose "d"])
                 (build_quiz_session 2 Sample.fresh_world).2)) = Some qs ∧
    session_invariant qs.
Proof.
  destruct (reachable_sessions_invariant AsciiStr.strip AsciiStr.upper AsciiStr.int
              2 Sample.fresh_world (build_quiz_session 2 Sample.fresh_world).2)
    as [Hanswers _]; [vm_compute; reflexivity|].
  destruct (Hanswers [Sample.choose "a"; Sample.choose "?"; Sample.choose "d"])
    as (qs & Hq & Hi & Hl & Hs & _).
  exists qs. split; [exact Hq|]. exact (conj Hi (conj Hl Hs)).
Defined.

(** The amount ["3"] on the sample bank. *)
Lemma start_clamps_amount_witness :
  ∃ w' qs,
    start AsciiStr.strip AsciiStr.int (Form (Some "Ana") (Some "3") None)
      Sample.fresh_world = (Ok (Redirect "quiz"), w') ∧
    s_quiz (w_session w') = Some qs ∧ length (questions qs) = 3%nat.
Proof.
  destruct (start_clamps_amount AsciiStr.strip AsciiStr.int Sample.fresh_world
              (Form (Some "Ana") (Some "3") None) Sample.bank)
    as (w' & qs & amount & Hrun & _ & Hq & Hlen & _ & _ & _ & _ & _ & Hin);
    [reflexivity | apply check_questions_Ok; vm_compute; reflexivity
    | simpl; lia |].
  exists w', qs. split_and!; [done|done|].
  specialize (Hin 3 ltac:(vm_compute; reflexivity) ltac:(simpl; lia)). lia.
Defined.

(** C10 as the specification words it fails: a number out of range is not
    replaced by the default. On a bank of two questions the amount ["0"] is
    outside [1, 2]; the request goes through and the session gets the bound
    1, not the default [min 10 2 = 2]. On a bank of fifteen questions the
    amount ["50"] gives the bound 15, not the default 10. *)
Lemma start_out_of_range_not_default :
  let w := Sample.world_with (Some Sample.small_bank) Sample.fresh_session in
  let f := Form None (Some "0") None in
  let w' := (start AsciiStr.strip AsciiStr.int f w).2 in
  let v := Sample.world_with (Some Sample.large_bank) Sample.fresh_session in
  let g := Form None (Some "50") None in
  let v' := (start AsciiStr.strip AsciiStr.int g v).2 in
  (AsciiStr.int "0" = Some 0 ∧
   question_count (w_questions_file w) = 2 ∧
   (start AsciiStr.strip AsciiStr.int f w).1 = Ok (Redirect "quiz") ∧
   s_amount (w_session w') = Some 1 ∧
   (length ∘ questions <$> s_quiz (w_session w')) = Some 1%nat ∧
   s_amount (w_session w') ≠ Some (Z.min 10 (question_count (w_questions_file w)))) ∧
  (AsciiStr.int "50" = Some 50 ∧
   question_count (w_questions_file v) = 15 ∧
   (start AsciiStr.strip AsciiStr.int g v).1 = Ok (Redirect "quiz") ∧
   s_amount (w_session v') = Some 15 ∧
   (length ∘ questions <$> s_quiz (w_session v')) = Some 15%nat ∧
   s_amount (w_session v') ≠ Some (Z.min 10 (question_count (w_questions_file v)))).
Proof. vm_compute. split_and!; (reflexivity || discriminate). Qed.

(** C8 fails on the code: [result] does not look at the position. On a
    session of three questions none of which is answered, the result view
    writes a row with score 0 and sets the persisted flag; when the three
    questions have then been answered correctly, the result view writes
    nothing, and the leaderboard keeps the row with score 0. *)
Theorem result_before_the_end_writes :
  let w := Sample.started_world in
  let finished :=
    after_all AsciiStr.strip AsciiStr.upper AsciiStr.int
      [GetResult; PostAnswer (Sample.choose "a"); PostAnswer (Sample.choose "b");
       PostAnswer (Sample.choose "c"); GetResult] w in
  s_quiz (w_session w) = Some Sample.quiz_at_start ∧
  idx Sample.quiz_at_start < Z.of_nat (length (questions Sample.quiz_at_start)) ∧
  w_highscores w = [] ∧
  w_highscores (result w).2 = [Highscore "Ana" 0 3 F64.zero 100] ∧
  s_score_saved (w_session (result w).2) = Some true ∧
  (score <$> s_quiz (w_session finished)) = Some 3 ∧
  (idx <$> s_quiz (w_session finished)) = Some 3 ∧
  w_highscores finished = [Highscore "Ana" 0 3 F64.zero 100].
Proof. vm_compute. split_and!; reflexivity. Qed.

(** The loader on the sample bank, and on banks with one malformed entry. *)
Example load_sample_bank : load_questions (Some Sample.bank) = Ok Sample.bank.
Proof. vm_compute. reflexivity. Qed.

Example load_missing_field :
  load_questions (Some (Sample.bank ++ [Sample.no_explanation])) =
  Raise (ValueError (MissingFields {[ "explanation" ]} Sample.no_explanation)).
Proof. vm_compute. reflexivity. Qed.

Example load_three_options :
  load_questions (Some (Sample.three_options :: Sample.bank)) =
  Raise (ValueError (NeedsFourOptions (VInt 7))).
Proof. vm_compute. reflexivity. Qed.

Example load_index_out_of_range :
  load_questions (Some [Sample.index_four]) =
  Raise (ValueError (InvalidAnswerIndex (VInt 8) (VInt 4))).
Proof. vm_compute. reflexivity. Qed.

Example load_index_not_int :
  load_questions (Some [Sample.index_string]) =
  Raise (ValueError (InvalidAnswerIndex (VInt 9) (VStr "1"))).
Proof. vm_compute. reflexivity. Qed.

(** A boolean index passes [isinstance(ai, int)]: [True] is the index 1. *)
Example load_boolean_index :
  load_questions (Some [Sample.make_question 10 (VBool true) Sample.four]) =
  Ok [Sample.make_question 10 (VBool true) Sample.four].
Proof. vm_compute. reflexivity. Qed.

Lemma load_questions_all_or_nothing_witness :
  ¬ Forall valid_question (Sample.bank ++ [Sample.three_options]) ∧
  ∃ e, load_questions (Some (Sample.bank ++ [Sample.three_options])) =
       Raise (ValueError e).
Proof.
  assert (¬ Forall valid_question (Sample.bank ++ [Sample.three_options])) as Hbad.
  { rewrite <- check_questions_Ok. vm_compute. discriminate. }
  split; [exact Hbad|].
  destruct (load_questions_all_or_nothing (Some (Sample.bank ++ [Sample.three_options])))
    as [_ H].
  destruct (H Hbad) as (good & q & rest & e & _ & _ & _ & _ & Hload).
  exists e. exact Hload.
Defined.



(** Documents that are no lists: a number cannot be iterated, a string is
    iterated by characters, and the empty object is returned as it is. *)
Example load_other_documents :
  Untyped.load_questions (Present (Ok (VInt 42))) = Raise TypeError ∧
  Untyped.load_questions (Present (Ok (VStr "quiz"))) = Raise AttributeError ∧
  Untyped.load_questions (Present (Ok (VDict []))) = Ok (VDict []) ∧
  Untyped.load_questions (Present (Ok (VList [Sample.entry 1 (VInt 0) Sample.four; VInt 42;
                                               Sample.entry 8 (VInt 4) Sample.four]))) =
    Raise AttributeError.
Proof. vm_compute. split_and!; reflexivity. Qed.

(** Seven of ten is the "Bom" band. *)
Lemma grade_rank_bands_witness : grade_rank 7 10 = Ok rank_good.
Proof.
  destruct (grade_rank_bands 7 10) as (_ & H & _).
  destruct (H ltac:(lia)) as [Hex Hchain].
  destruct (Hex ltac:(lia)) as [pct Hpct].
  destruct (Hchain pct Hpct) as (r & -> & _ & _ & Hgood & _).
  f_equal. apply Hgood. vm_compute in Hpct. injection Hpct as <-.
  vm_compute. by split_and!.
Defined.

(** A finished session viewed twice, then three more times: one row. *)
Lemma result_writes_at_most_once_witness :
  let w :=
    with_session
      (set_quiz (Some (QuizState (take 3 Sample.bank) 3 2 [] 100))
         Sample.started_session) Sample.started_world in
  ∃ row,
    w_highscores (after_all AsciiStr.strip AsciiStr.upper AsciiStr.int
                    [GetResult; GetResult] w) = [row] ∧
    h_score row = 2 ∧ h_total row = 3 ∧
    (length (w_highscores
               (after_all AsciiStr.strip AsciiStr.upper AsciiStr.int
                  (replicate 5 GetResult) w)) ≤ 1)%nat.
Proof.
  intros w.
  destruct (result_writes_at_most_once AsciiStr.strip AsciiStr.upper AsciiStr.int w)
    as [Hmost Htwice].
  destruct (Htwice (QuizState (take 3 Sample.bank) 3 2 [] 100))
    as (row & Hone & _ & Htwo); [reflexivity|discriminate|simpl; lia|].
  exists row. split; [exact Htwo|].
  vm_compute in Hone. injection Hone as <-. split; [reflexivity|].
  split; [reflexivity|].
  destruct (Hmost (replicate 5 GetResult)) as (rows & -> & Hlen & _).
  { repeat constructor. }
  exact Hlen.
Defined.

(** The scenario of the specification: five questions in the bank, three
    requested, all answered correctly. *)
Example end_to_end :
  let w := Sample.started_world in
  let finished :=
    after_all AsciiStr.strip AsciiStr.upper AsciiStr.int
      [PostAnswer (Sample.choose "A"); PostAnswer (Sample.choose "b");
       PostAnswer (Sample.choose " c"); GetResult; GetResult] w in
  (score <$> s_quiz (w_session finished)) = Some 3 ∧
  w_highscores finished = [Highscore "Ana" 3 3 F64.hundred 100] ∧
  grade_rank 3 3 = Ok rank_excellent.
Proof. vm_compute. split_and!; reflexivity. Qed.

(** ** The further properties on concrete requests *)

(** The sample bank counts five questions; a file with one malformed entry
    counts none. *)
Lemma question_count_fail_soft_witness :
  question_count (Some Sample.bank) = 5 ∧
  question_count (Some [Sample.index_four]) = 0.
Proof.
  split.
  - destruct (question_count_fail_soft (Some Sample.bank)) as (_ & _ & H).
    apply (H Sample.bank); [reflexivity|].
    apply check_questions_Ok. vm_compute. reflexivity.
  - destruct (question_count_fail_soft (Some [Sample.index_four])) as (_ & [_ H] & _).
    apply H. right. exists [Sample.index_four]. split; [reflexivity|]. left.
    intros Hv. apply check_questions_Ok in Hv. vm_compute in Hv. discriminate.
Defined.

(** A visitor without a quiz who looks at the quiz, answers and asks for the
    result: still no quiz, and nothing in the leaderboard. *)
Lemma no_quiz_no_effect_witness :
  let w :=
    after_all AsciiStr.strip AsciiStr.upper AsciiStr.int
      [GetQuiz; PostAnswer (Sample.choose "a"); GetResult] Sample.fresh_world in
  s_quiz (w_session w) = None ∧ w_highscores w = [].
Proof.
  destruct (no_quiz_no_effect AsciiStr.strip AsciiStr.upper AsciiStr.int
              Sample.fresh_world) as (_ & _ & _ & H); [reflexivity|].
  destruct (H [GetQuiz; PostAnswer (Sample.choose "a"); GetResult])
    as (Hq & _ & Hh); [repeat constructor|].
  split; [exact Hq|exact Hh].
Defined.

(** The sample quiz after three answers: the quiz view sends to the result,
    and a fourth answer changes nothing. *)
Lemma finished_quiz_is_closed_witness :
  let w :=
    after_all AsciiStr.strip AsciiStr.upper AsciiStr.int
      (PostAnswer <$> [Sample.choose "a"; Sample.choose "b"; Sample.choose "c"])
      Sample.started_world in
  quiz w = (Ok (Redirect "result"), w) ∧
  after_all AsciiStr.strip AsciiStr.upper AsciiStr.int
    (PostAnswer <$> [Sample.choose "d"]) w = w.
Proof.
  intros w.
  edestruct (finished_quiz_is_closed AsciiStr.strip AsciiStr.upper AsciiStr.int w)
    as (Hquiz & _ & Hall);
    [vm_compute; reflexivity | vm_compute; discriminate |].
  split; [exact Hquiz|apply Hall].
Defined.

(** No question file: [start] sends back to the index page and stores no
    quiz. *)
Lemma no_bank_no_session_witness :
  let w := Sample.world_with None Sample.fresh_session in
  ∃ w',
    start AsciiStr.strip AsciiStr.int (Form (Some "Ana") (Some "3") None) w =
      (Ok (Redirect "index"), w') ∧
    s_quiz (w_session w') = None.
Proof.
  intros w.
  destruct (no_bank_no_session AsciiStr.strip AsciiStr.int w
              (Form (Some "Ana") (Some "3") None)) as (m & Hstart & _).
  { simpl. intros bank H. discriminate H. }
  eexists. split; [exact Hstart|reflexivity].
Defined.

(** The started sample world is well formed; after an invalid answer, a
    reset and a quiz view, the result view still answers. *)
Lemma no_request_raises_witness :
  ∃ view,
    (handle AsciiStr.strip AsciiStr.upper AsciiStr.int GetResult
       (after_all AsciiStr.strip AsciiStr.upper AsciiStr.int
          [PostAnswer (Sample.choose "?"); PostReset; GetQuiz]
          Sample.started_world)).1 = Ok view.
Proof.
  destruct (no_request_raises AsciiStr.strip AsciiStr.upper AsciiStr.int
              Sample.started_world) as [_ H].
  { intros qs Hq. injection Hq as <-. split.
    - unfold session_invariant. simpl. split_and!; [lia|lia|reflexivity|reflexivity].
    - apply check_questions_Ok. vm_compute. reflexivity. }
  destruct (H [PostAnswer (Sample.choose "?"); PostReset; GetQuiz]) as [_ Hr].
  exact (Hr GetResult).
Defined.

(** Three answers on the sample quiz, one of them invalid: position 2. *)
Lemma answers_advance_witness :
  ∃ qs',
    s_quiz (w_session
              (after_all AsciiStr.strip AsciiStr.upper AsciiStr.int
                 (PostAnswer <$> [Sample.choose "a"; Sample.choose "?"; Sample.choose "d"])
                 Sample.started_world)) = Some qs' ∧
    idx qs' = 2 ∧ length (answers qs') = 2%nat.
Proof.
  destruct (answers_advance AsciiStr.strip AsciiStr.upper AsciiStr.int
              Sample.started_world Sample.quiz_at_start
              [Sample.choose "a"; Sample.choose "?"; Sample.choose "d"])
    as (qs' & Hq & _ & Hi & Hl);
    [reflexivity | simpl; lia | apply check_questions_Ok; vm_compute; reflexivity |].
  replace (count_valid AsciiStr.strip AsciiStr.upper
             [Sample.choose "a"; Sample.choose "?"; Sample.choose "d"])
    with 2 in Hi by (vm_compute; reflexivity).
  simpl in Hi, Hl. exists qs'. split; [exact Hq|]. split; [exact Hi|]. lia.
Defined.

(** Views and answers on the sample quiz: the questions stay. *)
Lemma session_log_grows_witness :
  ∃ qs' added,
    s_quiz (w_session
              (after_all AsciiStr.strip AsciiStr.upper AsciiStr.int
                 [GetQuiz; PostAnswer (Sample.choose "a"); GetResult;
                  PostAnswer (Sample.choose "b")]
                 Sample.started_world)) = Some qs' ∧
    questions qs' = take 3 Sample.bank ∧
    answers qs' = added ∧ idx qs' = Z.of_nat (length added).
Proof.
  destruct (session_log_grows AsciiStr.strip AsciiStr.upper AsciiStr.int
              Sample.started_world Sample.quiz_at_start
              [GetQuiz; PostAnswer (Sample.choose "a"); GetResult;
               PostAnswer (Sample.choose "b")])
    as (qs' & added & Hq & Hqq & _ & Hlog & Hi & _);
    [reflexivity | repeat constructor |].
  exists qs', added. split; [exact Hq|]. split; [exact Hqq|].
  split; [exact Hlog|]. simpl in Hi. lia.
Defined.

(** The quiz view of the started sample world renders a question. *)
Lemma quiz_shows_current_question_witness :
  ∃ qtext qid opts,
    quiz Sample.started_world =
      (Ok (RenderQuiz "Ana" 0 3 qtext qid (zip letters opts)),
       Sample.started_world) ∧
    (zip letters opts).*2 = opts.
Proof.
  destruct (quiz_shows_current_question AsciiStr.strip AsciiStr.upper
              Sample.started_world Sample.quiz_at_start)
    as (q & opts & qtext & qid & i & cl & co & _ & _ & _ & Hquiz & _ & Hsnd & _);
    [reflexivity | simpl; lia | apply check_questions_Ok; vm_compute; reflexivity |].
  exists qtext, qid, opts. split; [exact Hquiz|exact Hsnd].
Defined.

(** A reset of the started sample world: three new questions, position 0. *)
Lemma reset_starts_over_witness :
  ∃ qs,
    s_quiz (w_session (reset Sample.started_world).2) = Some qs ∧
    length (questions qs) = 3%nat ∧ idx qs = 0 ∧
    s_score_saved (w_session (reset Sample.started_world).2) = Some false.
Proof.
  destruct (reset_starts_over Sample.started_world)
    as (prepared & g & Hrun & _ & Hlen); [vm_compute; reflexivity|].
  rewrite Hrun. eexists. split; [reflexivity|].
  replace (question_count (w_questions_file Sample.started_world)) with 5 in Hlen
    by (vm_compute; reflexivity).
  simpl in Hlen. simpl. split_and!; [lia|reflexivity|reflexivity].
Defined.

(** A question without options cannot be shuffled. *)
Lemma shuffle_question_errors_witness :
  shuffle_question (delete "options" (Sample.make_question 1 (VInt 0) Sample.four))
    Sample.fresh_world = (Raise (KeyError "options"), Sample.fresh_world).
Proof.
  destruct (shuffle_question_errors
              (delete "options" (Sample.make_question 1 (VInt 0) Sample.four))
              Sample.fresh_world) as (H & _).
  apply H. vm_compute. reflexivity.
Defined.

(** Three questions of the sample bank, each in a shuffled copy. *)
Lemma build_quiz_session_selects_witness :
  ∃ selected qs,
    s_quiz (w_session (build_quiz_session 3 Sample.fresh_world).2) = Some qs ∧
    selected ⊆+ Sample.bank ∧ length selected = 3%nat ∧
    Forall2 shuffled_copy selected (questions qs).
Proof.
  destruct (build_quiz_session_selects 3 Sample.fresh_world Sample.bank)
    as (selected & prepared & g & Hrun & Hsub & Hlen & Hcopy);
    [reflexivity | apply check_questions_Ok; vm_compute; reflexivity |].
  rewrite Hrun. eexists selected, _. split; [reflexivity|].
  split; [exact Hsub|]. split; [exact Hlen|exact Hcopy].
Defined.

(** Five out of five, and none out of five. *)
Lemma full_marks_and_no_marks_witness :
  grade_rank 5 5 = Ok rank_excellent ∧
  percent_of 5 5 = Ok F64.hundred ∧
  grade_rank 0 5 = Ok rank_beginner ∧
  percent_of 0 5 = Ok F64.zero.
Proof. apply (full_marks_and_no_marks 5). lia. Defined.

(** Ana asks for two questions and answers them: one row, for two
    questions, under her name. *)
Lemma complete_quiz_is_recorded_witness :
  let forms := [Sample.choose "a"; Sample.choose "?"; Sample.choose "c"] in
  let finished :=
    after_all AsciiStr.strip AsciiStr.upper AsciiStr.int
      (PostStart (Form (Some " Ana ") (Some "2") None)
         :: (PostAnswer <$> forms) ++ [GetResult])
      Sample.fresh_world in
  ∃ row,
    w_highscores finished = [row] ∧ h_name row = "Ana" ∧ h_total row = 2 ∧
    0 ≤ h_score row ≤ 2 ∧
    s_score_saved (w_session finished) = Some true.
Proof.
  intros forms finished.
  pose proof (complete_quiz_is_recorded AsciiStr.strip AsciiStr.upper AsciiStr.int
                Sample.fresh_world (Form (Some " Ana ") (Some "2") None) forms) as H.
  cbv zeta in H.
  destruct H as (qs & row & _ & _ & _ & _ & Hrows & Hname & Htotal & _ & Hscore
                   & _ & Hflag);
    [vm_compute; reflexivity | vm_compute; discriminate |].
  exists row. split; [exact Hrows|].
  split; [rewrite Hname; vm_compute; reflexivity|].
  split; [rewrite Htotal; vm_compute; reflexivity|].
  split; [|exact Hflag].
  replace 2 with (clamp_int AsciiStr.int "2" 2 1 5) by (vm_compute; reflexivity).
  exact Hscore.
Defined.

(** The second sample question, shuffled, as the only question of a quiz:
    the answer B is marked correct exactly when the option shown beside B is
    the one that was at index 1. *)
Lemma shuffled_question_graded_by_option_witness :
  let q := Sample.make_question 2 (VInt 1) Sample.four in
  let run := shuffle_question q Sample.fresh_world in
  let q' := match run.1 with Ok shuffled => shuffled | Raise _ => q end in
  let w :=
    Sample.world_with (Some Sample.bank)
      (FlaskSession (Some (QuizState [q'] 0 0 [] 100)) (Some false) None None []) in
  run.1 = Ok q' ∧
  ∃ opts' shown a,
    q' !! "options" = Some (VList opts') ∧ opts' !! 1%nat = Some shown ∧
    (answers <$>
       s_quiz (w_session
                 (after AsciiStr.strip AsciiStr.upper AsciiStr.int
                    (PostAnswer (Sample.choose "b")) w))) = Some [a] ∧
    (a_is_correct a = true ↔ shown = VStr "east").
Proof.
  intros q run q' w. split; [vm_compute; reflexivity|].
  destruct (shuffled_question_graded_by_option
              AsciiStr.strip AsciiStr.upper AsciiStr.int
              q q' Sample.fresh_world run.2 w (QuizState [q'] 0 0 [] 100)
              (Sample.choose "b") 1%nat Sample.four 1)
    as (opts' & shown & a & qs' & Ho' & Hshown & Hq & Hlog & Hcorrect & Hchosen);
    [apply check_question_Ok; vm_compute; reflexivity
    | vm_compute; reflexivity | vm_compute; reflexivity | vm_compute; reflexivity
    | reflexivity | vm_compute; discriminate | reflexivity
    | vm_compute; reflexivity |].
  exists opts', shown, a. split; [exact Ho'|]. split; [exact Hshown|].
  rewrite Hq. split; [exact (f_equal Some Hlog)|].
  split.
  - intros Hc. apply Hcorrect in Hc. vm_compute in Hc. congruence.
  - intros ->. apply Hchosen; [|reflexivity].
    unfold Sample.four.
    repeat (apply NoDup_cons; split;
      [intros H; repeat (apply elem_of_cons in H as [H|H]; [discriminate H|]);
       by apply elem_of_nil in H|]).
    apply NoDup_nil_2.
Defined.

(** The amount ["0"] on the sample bank: one question, and no message. *)
Lemma start_warns_only_above_witness :
  let w' :=
    (start AsciiStr.strip AsciiStr.int (Form (Some "Ana") (Some "0") None)
       Sample.fresh_world).2 in
  s_amount (w_session w') = Some 1 ∧ s_flashes (w_session w') = [].
Proof.
  pose proof (start_warns_only_above AsciiStr.strip AsciiStr.int Sample.fresh_world
                (Form (Some "Ana") (Some "0") None)) as H.
  cbv zeta in H.
  destruct H as (_ & H & _); [vm_compute; reflexivity|].
  apply (H 0); [vm_compute; reflexivity | lia].
Defined.
